(** * codeintel-input-sanitization-checker: a shallow embedding of [main.py]

    The program is a command-line orchestrator: it validates its arguments,
    builds one command line per requested analysis tool (bandit, flake8,
    pylint), runs each as a child process, collects the results in a
    dictionary and reports them on a file or on standard output.

    The embedding follows the source function by function.  Effects
    (logging, [os.path.exists], [subprocess.Popen], [open]/[write], [print],
    [sys.exit] and Python exceptions) are threaded through a small
    state-and-exception monad over a [World]: a file system together with the
    chronological trace of the effects performed so far.  What a child
    process does is not part of the program; it is a parameter of the
    development (an oracle from command line and file system to an outcome
    and a new file system). *)

From Stdlib Require Import ZArith DecimalString Ascii.
From stdpp Require Import gmap strings list.

(** ** Python values used by the program *)

Module Py.

(** [f"{n}"] for an integer. *)
Definition str_int (z : Z) : string := NilZero.string_of_int (Z.to_int z).

(** [sep.join(l)]. *)
Definition join (sep : string) (l : list string) : string :=
  String.concat sep l.

(** The line terminator. *)
Definition nl : string := String (ascii_of_nat 10) EmptyString.

(** ["-" * 40] and friends. *)
Fixpoint repeat_str (s : string) (n : nat) : string :=
  match n with
  | O => EmptyString
  | S n' => s +:+ repeat_str s n'
  end.

(** Truthiness of an optional string argument ([None] and [""] are false). *)
Definition truthy_str (o : option string) : bool :=
  match o with
  | Some (String _ _) => true
  | _ => false
  end.

(** Truthiness of a string. *)
Definition nonempty_str (s : string) : bool :=
  match s with
  | String _ _ => true
  | EmptyString => false
  end.

(** Truthiness of an optional list argument ([None] and [[]] are false). *)
Definition truthy_list {A} (o : option (list A)) : bool :=
  match o with
  | Some (_ :: _) => true
  | _ => false
  end.

(** The value a truthy optional argument holds; the default is never
    observed, every use is guarded by the truthiness test. *)
Definition the_str (o : option string) : string := default EmptyString o.
Definition the_list {A} (o : option (list A)) : list A := default [] o.

(** [tool in valid_tools] on a list of strings. *)
Definition contains (x : string) (l : list string) : bool :=
  bool_decide (x ∈ l).

(** A Python [dict] with string keys: insertion ordered, and assigning to
    a key that is already present replaces the value in place. *)
Definition dict (V : Type) : Type := list (string * V).

Fixpoint dict_set {V} (k : string) (v : V) (d : dict V) : dict V :=
  match d with
  | [] => [(k, v)]
  | (k', v') :: d' =>
      if decide (k = k') then (k', v) :: d'
      else (k', v') :: dict_set k v d'
  end.

Fixpoint dict_get {V} (k : string) (d : dict V) : option V :=
  match d with
  | [] => None
  | (k', v') :: d' => if decide (k = k') then Some v' else dict_get k d'
  end.

(** [d.items()] and [d.keys()], in insertion order. *)
Definition dict_items {V} (d : dict V) : list (string * V) := d.
Definition dict_keys {V} (d : dict V) : list string := d.*1.

(** The exception classes the program can meet.  [IOError] is an alias of
    [OSError]; [FileNotFoundError] is one of its subclasses.  [SystemExit]
    derives from [BaseException], not from [Exception]. *)
Inductive ExnClass : Type :=
| ValueError
| FileNotFoundError
| OSError
| OtherException.

Inductive Exn : Type :=
| SystemExit (code : Z)
| Exc (c : ExnClass) (msg : string).

(** [str(e)]. *)
Definition str_exn (e : Exn) : string :=
  match e with
  | SystemExit code => str_int code
  | Exc _ msg => msg
  end.

(** [isinstance(e, IOError)]. *)
Definition is_IOError (e : Exn) : bool :=
  match e with
  | Exc FileNotFoundError _ | Exc OSError _ => true
  | _ => false
  end.

End Py.

Import Py.

(** ** Command-line construction (the body of [run_tool], lines 43-69) *)

Module Command.

(** [command.extend(more)]. *)
Definition extend (command more : list string) : list string :=
  command ++ more.

Definition offensive_rules : string := "B101,B301,B603,B605,B608".

(** [for i in ignore: command.extend(["-x", i])]. *)
Definition extend_exclusions (command ignore : list string) : list string :=
  fold_left (fun c i => extend c ["-x"; i]) ignore command.

Definition bandit_command (target : string) (ignore : option (list string))
    (output : option string) (offensive : bool) : list string :=
  let command := ["bandit"; "-r"; target; "-q"] in
  let command :=
    if offensive then extend command ["-s"; offensive_rules] else command in
  let command :=
    if truthy_list ignore then extend_exclusions command (the_list ignore)
    else command in
  if truthy_str output then extend command ["-o"; the_str output; "-f"; "txt"]
  else command.

Definition flake8_command (target : string) (ignore : option (list string))
    (output : option string) : list string :=
  let command := ["flake8"; target] in
  let command :=
    if truthy_list ignore
    then extend command ["--exclude"; join "," (the_list ignore)]
    else command in
  if truthy_str output then extend command ["--output-file"; the_str output]
  else command.

Definition pylint_command (target : string) (ignore : option (list string))
    (output : option string) : list string :=
  let command :=
    ["pylint"; target; "--disable=all"; "--enable=security"; "--reports=n"] in
  let command :=
    if truthy_list ignore
    then extend command ["--ignore"; join "," (the_list ignore)]
    else command in
  if truthy_str output then extend command ["--output"; the_str output]
  else command.

(** The [if]/[elif]/[else] chain on the tool name; [None] is the [else]
    branch, where the source raises [ValueError]. *)
Definition build_command (tool target : string)
    (ignore : option (list string)) (output : option string)
    (offensive : bool) : option (list string) :=
  if decide (tool = "bandit")
  then Some (bandit_command target ignore output offensive)
  else if decide (tool = "flake8")
  then Some (flake8_command target ignore output)
  else if decide (tool = "pylint")
  then Some (pylint_command target ignore output)
  else None.

(** The fixed base flags of a tool, and the flag that introduces its
    report file. *)
Definition base_flags (tool : string) : list string :=
  if decide (tool = "bandit") then ["-r"; "-q"]
  else if decide (tool = "flake8") then []
  else if decide (tool = "pylint")
  then ["--disable=all"; "--enable=security"; "--reports=n"]
  else [].

Definition output_flag (tool : string) : string :=
  if decide (tool = "bandit") then "-o"
  else if decide (tool = "flake8") then "--output-file"
  else "--output".

(** [a] immediately followed by [b] somewhere in [l]. *)
Fixpoint adjacent (a b : string) (l : list string) : bool :=
  match l with
  | x :: (y :: _) as l' =>
      (bool_decide (x = a) && bool_decide (y = b)) || adjacent a b l'
  | _ => false
  end.

End Command.

Import Command.

Definition supported_tools : list string := ["bandit"; "flake8"; "pylint"].

(** ** The world the program runs in *)

Inductive Level : Type := DEBUG | INFO | WARNING | ERROR.

(** [logging.basicConfig(level=logging.INFO)]: records below INFO are
    dropped. *)
Definition level_enabled (lvl : Level) : bool :=
  match lvl with
  | DEBUG => false
  | _ => true
  end.

Inductive Node : Type :=
| File (content : string)
| Dir.

(** Files and directories by path, and the paths that cannot be opened for
    writing (a read-only file, a path below a missing or protected
    directory). *)
Record FileSystem : Type := mkFS {
  nodes : gmap string Node;
  readonly : gset string
}.

(** The effects of the program, recorded in the order they happen. *)
Inductive Event : Type :=
| EvLog (lvl : Level) (msg : string)
| EvExists (path : string)
| EvSpawn (command : list string)
| EvOpen (path : string)
| EvWrite (path : string) (data : string)
| EvPrint (line : string).

Record World : Type := mkWorld {
  fs : FileSystem;
  trace : list Event
}.

(** What running a command line to completion gives: the child's exit code
    and its raw output streams, or the exception [subprocess.Popen] (or
    [communicate]) raises. *)
Inductive ProcResult : Type :=
| Completed (returncode : Z) (out err : list Byte.byte)
| LaunchFailed (c : ExnClass) (msg : string).

(** The command lines handed to [subprocess.Popen], in order. *)
Fixpoint spawned (t : list Event) : list (list string) :=
  match t with
  | [] => []
  | EvSpawn c :: t' => c :: spawned t'
  | _ :: t' => spawned t'
  end.

(** The paths [os.path.exists] was asked about, in order. *)
Fixpoint probed (t : list Event) : list string :=
  match t with
  | [] => []
  | EvExists p :: t' => p :: probed t'
  | _ :: t' => probed t'
  end.

(** The paths opened for writing, in order. *)
Fixpoint opened (t : list Event) : list string :=
  match t with
  | [] => []
  | EvOpen p :: t' => p :: opened t'
  | _ :: t' => opened t'
  end.

(** Everything written to standard output. *)
Fixpoint printed (t : list Event) : string :=
  match t with
  | [] => EmptyString
  | EvPrint s :: t' => s +:+ nl +:+ printed t'
  | _ :: t' => printed t'
  end.

Definition is_spawn (e : Event) : bool :=
  match e with EvSpawn _ => true | _ => false end.

Definition is_probe (e : Event) : bool :=
  match e with EvExists _ => true | _ => false end.

Definition is_open (e : Event) : bool :=
  match e with EvOpen _ => true | _ => false end.

(** The content of a regular file. *)
Definition read_file (f : FileSystem) (path : string) : option string :=
  match nodes f !! path with
  | Some (File s) => Some s
  | _ => None
  end.

(** ** The state-and-exception monad *)

Inductive Outcome (A : Type) : Type :=
| Ok (a : A)
| Raised (e : Exn).

Arguments Ok {A} a.
Arguments Raised {A} e.

Definition M (A : Type) : Type := World -> Outcome A * World.

Definition ret {A} (a : A) : M A := fun w => (Ok a, w).

Definition bind {A B} (m : M A) (k : A -> M B) : M B :=
  fun w =>
    match m w with
    | (Ok a, w') => k a w'
    | (Raised e, w') => (Raised e, w')
    end.

Definition raise {A} (e : Exn) : M A := fun w => (Raised e, w).

(** [try: body / except ...: handler]; the handler table answers [None] for
    an exception no clause matches, which then propagates. *)
Definition try_except {A} (body : M A) (handlers : Exn -> option (M A)) : M A :=
  fun w =>
    match body w with
    | (Ok a, w') => (Ok a, w')
    | (Raised e, w') =>
        match handlers e with
        | Some h => h w'
        | None => (Raised e, w')
        end
    end.

Declare Scope py_scope.
Delimit Scope py_scope with py.
Notation "'do' x <- m ; k" := (bind m (fun x => k))
  (at level 10, x name, m at level 100, k at level 200) : py_scope.
Notation "'do' ' pat <- m ; k" :=
  (bind m (fun x => match x with pat => k end))
  (at level 10, pat pattern, m at level 100, k at level 200) : py_scope.
Notation "'exec' m ; k" := (bind m (fun _ => k))
  (at level 10, m at level 100, k at level 200) : py_scope.
Open Scope py_scope.

Definition emit (e : Event) : M unit :=
  fun w => (Ok tt, mkWorld (fs w) (trace w ++ [e])).

Definition when (b : bool) (m : M unit) : M unit :=
  if b then m else ret tt.

(** [for x in l: body(x)]. *)
Fixpoint for_each {A} (l : list A) (body : A -> M unit) : M unit :=
  match l with
  | [] => ret tt
  | x :: l' => exec body x; for_each l' body
  end.

(** *** Library calls *)

Definition logging_log (lvl : Level) (msg : string) : M unit :=
  when (level_enabled lvl) (emit (EvLog lvl msg)).

Definition logging_debug := logging_log DEBUG.
Definition logging_info := logging_log INFO.
Definition logging_warning := logging_log WARNING.
Definition logging_error := logging_log ERROR.

(** [sys.exit(code)]. *)
Definition sys_exit (code : Z) : M unit := raise (SystemExit code).

(** [print(line)]. *)
Definition print (line : string) : M unit := emit (EvPrint line).

(** [os.path.exists(path)]. *)
Definition os_path_exists (path : string) : M bool :=
  exec emit (EvExists path);
  fun w => (Ok (bool_decide (is_Some (nodes (fs w) !! path))), w).

Definition can_open_w (f : FileSystem) (path : string) : bool :=
  negb (bool_decide (path ∈ readonly f)) &&
  match nodes f !! path with
  | Some Dir => false
  | _ => true
  end.

(** [open(path, "w")]: the file is created or truncated; the handle is the
    path. *)
Definition open_w (path : string) : M string :=
  exec emit (EvOpen path);
  fun w =>
    if can_open_w (fs w) path
    then (Ok path,
          mkWorld (mkFS (<[path := File EmptyString]> (nodes (fs w)))
                        (readonly (fs w)))
                  (trace w))
    else (Raised (Exc OSError ("cannot open '" +:+ path +:+ "' for writing")), w).

(** [f.write(data)]: appends to the open file. *)
Definition file_write (f : string) (data : string) : M unit :=
  exec emit (EvWrite f data);
  fun w =>
    match nodes (fs w) !! f with
    | Some (File s) =>
        (Ok tt,
         mkWorld (mkFS (<[f := File (s +:+ data)]> (nodes (fs w)))
                       (readonly (fs w)))
                 (trace w))
    | _ => (Raised (Exc OSError ("cannot write to '" +:+ f +:+ "'")), w)
    end.

(** [with open(path, "w") as f: body(f)]. *)
Definition with_open_w {A} (path : string) (body : string -> M A) : M A :=
  do f <- open_w path; body f.

(** ** The program *)

(** The parsed command line ([argparse.Namespace]). *)
Record Args : Type := mkArgs {
  target : string;
  tools : list string;
  output : option string;
  ignore : option (list string);
  offensive : bool
}.

(** One value of the [results] dictionary. *)
Record ToolResult : Type := mkResult {
  return_code : Z;
  stdout : string;
  stderr : string
}.

(** [repr] of a list of plain strings, as [f"{valid_tools}"] prints it. *)
Definition repr_list (l : list string) : string :=
  "[" +:+ join ", " (map (fun s => "'" +:+ s +:+ "'") l) +:+ "]".

(** ["-" * 40]. *)
Definition rule : string := repeat_str "-" 40.

(** The text of one block of the report. *)
Definition report_block (tool : string) (r : ToolResult) : string :=
  ("Results for " +:+ tool +:+ ":" +:+ nl) +:+
  ("Return Code: " +:+ str_int (return_code r) +:+ nl) +:+
  ("Stdout:" +:+ nl +:+ stdout r +:+ nl) +:+
  ("Stderr:" +:+ nl +:+ stderr r +:+ nl) +:+
  (rule +:+ nl).

(** The text of the whole report: the blocks of the entries, in order. *)
Fixpoint report_text (items : list (string * ToolResult)) : string :=
  match items with
  | [] => EmptyString
  | (tool, r) :: rest => report_block tool r +:+ report_text rest
  end.

(** ** Sample child processes, for running the embedding *)

(** The token that follows [flag] in a command line. *)
Fixpoint flag_value (flag : string) (command : list string) : option string :=
  match command with
  | x :: (y :: _) as rest =>
      if decide (x = flag) then Some y else flag_value flag rest
  | _ => None
  end.

(** Where a tool writes its own report, if asked to. *)
Definition native_report_path (command : list string) : option string :=
  match command with
  | exe :: _ => flag_value (output_flag exe) command
  | [] => None
  end.

(** A machine on which bandit is not installed, flake8 reports a finding
    and pylint is clean; a tool given a report path writes its report
    there. *)
Definition sample_oracle (command : list string) (f : FileSystem)
    : ProcResult * FileSystem :=
  match command with
  | exe :: _ =>
      if decide (exe = "bandit") then
        (LaunchFailed FileNotFoundError
           "[Errno 2] No such file or directory: 'bandit'", f)
      else
        let f' :=
          match native_report_path command with
          | Some path =>
              mkFS (<[path := File (exe +:+ " native report")]> (nodes f))
                   (readonly f)
          | None => f
          end in
        if decide (exe = "flake8") then
          (Completed 1
             (String.list_byte_of_string "app.py:1:80: E501 line too long")
             [], f')
        else (Completed 0 [] [], f')
  | [] => (LaunchFailed ValueError "empty command", f)
  end.

(** A machine out of memory: every launch raises [MemoryError()], an
    [Exception] whose description [str(e)] is the empty string. *)
Definition exhausted_oracle (command : list string) (f : FileSystem)
    : ProcResult * FileSystem :=
  (LaunchFailed OtherException EmptyString, f).

Definition sample_decode (b : list Byte.byte) : string :=
  String.string_of_list_byte b.

(** A project directory with one source file and a read-only report. *)
Definition sample_fs : FileSystem :=
  mkFS (<["proj" := Dir]> (<["proj/app.py" := File "import os"]>
         (<["locked.txt" := File "old"]> ∅)))
       {["locked.txt"]}.

(** Sample command lines: a request with a repeated tool and a report
    file, the same request reported on standard output, a request on a
    missing target, and one whose report file is read-only. *)
Definition sample_args : Args :=
  mkArgs "proj" ["bandit"; "flake8"; "pylint"; "flake8"] (Some "report.txt")
         (Some ["proj/app.py"]) true.

Definition stdout_args : Args :=
  mkArgs "proj" ["flake8"; "pylint"; "flake8"] None None false.

Definition missing_args : Args :=
  mkArgs "nowhere" ["bandit"; "flake8"] None None false.

Definition locked_args : Args :=
  mkArgs "proj" ["pylint"] (Some "locked.txt") None false.

(** More sample command lines: an unsupported tool together with a missing
    ignore path, and a single tool reported on standard output. *)
Definition invalid_args : Args :=
  mkArgs "proj" ["flake8"; "mypy"; "eslint"] None (Some ["nowhere"]) false.

Definition single_args : Args :=
  mkArgs "proj" ["flake8"] None None false.

Section Program.

(** What a command line does when it is run on a file system. *)
Variable popen_oracle : list string -> FileSystem -> ProcResult * FileSystem.

(** [bytes.decode("utf-8", errors="ignore")]: total. *)
Variable decode_utf8_ignore : list Byte.byte -> string.

(** [subprocess.Popen(command, stdout=PIPE, stderr=PIPE)], [communicate()]
    and [returncode] (lines 72-74). *)
Definition popen_communicate (command : list string)
    : M (Z * list Byte.byte * list Byte.byte) :=
  exec emit (EvSpawn command);
  fun w =>
    let '(r, f') := popen_oracle command (fs w) in
    let w' := mkWorld f' (trace w) in
    match r with
    | Completed rc out err => (Ok (rc, out, err), w')
    | LaunchFailed c msg => (Raised (Exc c msg), w')
    end.

(** The [try] block of [run_tool] (lines 43-80). *)
Definition run_tool_body (tool target : string)
    (ignore : option (list string)) (output : option string)
    (offensive : bool) : M (Z * string * string) :=
  do command <-
    match build_command tool target ignore output offensive with
    | Some command => ret command
    | None => raise (Exc ValueError ("Unsupported tool: " +:+ tool))
    end;
  exec logging_info ("Running: " +:+ join " " command);
  do '(return_code, stdout, stderr) <- popen_communicate command;
  let stdout_str := decode_utf8_ignore stdout in
  let stderr_str := decode_utf8_ignore stderr in
  exec logging_debug ("Tool output (stdout):" +:+ nl +:+ stdout_str);
  exec logging_debug ("Tool output (stderr):" +:+ nl +:+ stderr_str);
  ret (return_code, stdout_str, stderr_str).

(** The two [except] clauses of [run_tool] (lines 82-87). *)
Definition run_tool_handlers (tool : string) (e : Exn)
    : option (M (Z * string * string)) :=
  match e with
  | Exc FileNotFoundError _ =>
      Some (exec logging_error
              ("Error: " +:+ tool +:+
               " not found. Please ensure it is installed and in your PATH.");
            ret (1%Z, EmptyString, str_exn e))
  | Exc _ _ =>
      Some (exec logging_error
              ("An unexpected error occurred while running " +:+ tool +:+
               ": " +:+ str_exn e);
            ret (1%Z, EmptyString, str_exn e))
  | SystemExit _ => None
  end.

Definition run_tool (tool target : string) (ignore : option (list string))
    (output : option string) (offensive : bool) : M (Z * string * string) :=
  try_except (run_tool_body tool target ignore output offensive)
             (run_tool_handlers tool).

Definition validate_target (target : string) : M bool :=
  do found <- os_path_exists target;
  if negb found then
    exec logging_error ("Error: Target '" +:+ target +:+ "' does not exist.");
    ret false
  else ret true.

Definition valid_tools : list string := ["bandit"; "flake8"; "pylint"].

Fixpoint validate_tools (tools : list string) : M bool :=
  match tools with
  | [] => ret true
  | tool :: rest =>
      if negb (contains tool valid_tools) then
        exec logging_error
          ("Error: Invalid tool '" +:+ tool +:+ "'. Valid tools are: " +:+
           repr_list valid_tools);
        ret false
      else validate_tools rest
  end.

Fixpoint validate_paths (paths : list string) : M bool :=
  match paths with
  | [] => ret true
  | path :: rest =>
      do found <- os_path_exists path;
      if negb found then
        exec logging_error
          ("Error: Ignore path '" +:+ path +:+ "' does not exist.");
        ret false
      else validate_paths rest
  end.

Definition validate_ignore_paths (ignore_paths : option (list string))
    : M bool :=
  match ignore_paths with
  | None => ret true
  | Some paths => validate_paths paths
  end.

(** The loop over [args.tools] (lines 157-165), threading [results]. *)
Fixpoint run_tools (args : Args) (todo : list string)
    (results : dict ToolResult) : M (dict ToolResult) :=
  match todo with
  | [] => ret results
  | tool :: rest =>
      exec logging_info
        ("Running " +:+ tool +:+ " on " +:+ target args +:+ "...");
      do '(rc, out, err) <-
        run_tool tool (target args) (ignore args) (output args)
                 (offensive args);
      let results := dict_set tool (mkResult rc out err) results in
      exec when (negb (rc =? 0)%Z)
        (exec logging_warning
           (tool +:+ " returned a non-zero exit code: " +:+ str_int rc);
         when (nonempty_str err)
           (logging_error (tool +:+ " stderr: " +:+ err)));
      run_tools args rest results
  end.

(** The body of the [with] block (lines 171-176). *)
Definition write_block (f : string) (item : string * ToolResult) : M unit :=
  let '(tool, result) := item in
  exec file_write f ("Results for " +:+ tool +:+ ":" +:+ nl);
  exec file_write f
    ("Return Code: " +:+ str_int (return_code result) +:+ nl);
  exec file_write f ("Stdout:" +:+ nl +:+ stdout result +:+ nl);
  exec file_write f ("Stderr:" +:+ nl +:+ stderr result +:+ nl);
  file_write f (rule +:+ nl).

(** The body of the printing loop (lines 183-187). *)
Definition print_block (item : string * ToolResult) : M unit :=
  let '(tool, result) := item in
  exec print ("Results for " +:+ tool +:+ ":");
  exec print ("Return Code: " +:+ str_int (return_code result));
  exec print ("Stdout:" +:+ nl +:+ stdout result);
  exec print ("Stderr:" +:+ nl +:+ stderr result);
  print rule.

(** Lines 168-187. *)
Definition report (args : Args) (results : dict ToolResult) : M unit :=
  if truthy_str (output args) then
    try_except
      (exec with_open_w (the_str (output args))
         (fun f => for_each (dict_items results) (write_block f));
       logging_info ("Results written to " +:+ the_str (output args)))
      (fun e =>
         if is_IOError e then
           Some (exec logging_error
                   ("Error writing to output file: " +:+ str_exn e);
                 sys_exit 1)
         else None)
  else for_each (dict_items results) print_block.

Definition main (args : Args) : M unit :=
  do ok <- validate_target (target args);
  exec when (negb ok) (sys_exit 1);
  do ok <- validate_tools (tools args);
  exec when (negb ok) (sys_exit 1);
  exec (if truthy_list (ignore args) then
          do ok <- validate_ignore_paths (ignore args);
          when (negb ok) (sys_exit 1)
        else ret tt);
  do results <- run_tools args (tools args) [];
  exec report args results;
  logging_info "Analysis complete.".

(** The exit status of the process: 0 when [main] returns, the code of
    [sys.exit], and 1 for an exception nothing catches. *)
Definition exit_status (r : Outcome unit) : Z :=
  match r with
  | Ok _ => 0
  | Raised (SystemExit code) => code
  | Raised (Exc _ _) => 1
  end.

Definition run_program (args : Args) (w : World) : Z * World :=
  let '(r, w') := main args w in (exit_status r, w').

(** The first run of the program: nothing has happened yet. *)
Definition initial (f : FileSystem) : World := mkWorld f [].

(** *** Quantities the statements speak about *)

(** One turn of the loop of lines 157-165, without the assignment to
    [results]: the result record the turn stores. *)
Definition iteration (args : Args) (tool : string) : M ToolResult :=
  exec logging_info
    ("Running " +:+ tool +:+ " on " +:+ target args +:+ "...");
  do '(rc, out, err) <-
    run_tool tool (target args) (ignore args) (output args) (offensive args);
  exec when (negb (rc =? 0)%Z)
    (exec logging_warning
       (tool +:+ " returned a non-zero exit code: " +:+ str_int rc);
     when (nonempty_str err)
       (logging_error (tool +:+ " stderr: " +:+ err)));
  ret (mkResult rc out err).

(** The executions of a run: one pair of tool and result per occurrence
    of a tool in the request, in order, and the world the loop ends in. *)
Fixpoint executions (args : Args) (todo : list string) (w : World)
    : list (string * ToolResult) * World :=
  match todo with
  | [] => ([], w)
  | tool :: rest =>
      match iteration args tool w with
      | (Ok r, w') =>
          let '(l, w'') := executions args rest w' in ((tool, r) :: l, w'')
      | (Raised _, w') => ([], w')
      end
  end.

(** The result of the last execution of [tool] among [l]. *)
Fixpoint last_result (tool : string) (l : list (string * ToolResult))
    : option ToolResult :=
  match l with
  | [] => None
  | (t, r) :: l' =>
      match last_result tool l' with
      | Some r' => Some r'
      | None => if decide (tool = t) then Some r else None
      end
  end.

(** The distinct identifiers of a request, in order of first occurrence. *)
Fixpoint distinct (l : list string) : list string :=
  match l with
  | [] => []
  | x :: l' => x :: filter (fun y => y <> x) (distinct l')
  end.

(** The three checks of lines 147-154, read off the file system. *)
Definition path_exists (f : FileSystem) (path : string) : bool :=
  bool_decide (is_Some (nodes f !! path)).

Definition target_missing (args : Args) (f : FileSystem) : bool :=
  negb (path_exists f (target args)).

Definition invalid_tool_given (args : Args) : bool :=
  negb (forallb (fun t => contains t supported_tools) (tools args)).

Definition ignore_path_missing (args : Args) (f : FileSystem) : bool :=
  negb (forallb (path_exists f) (the_list (ignore args))).

Definition validation_fails (args : Args) (f : FileSystem) : bool :=
  target_missing args f || invalid_tool_given args ||
  ignore_path_missing args f.

(** What [run_tool] logs when the launch raises. *)
Definition launch_error_log (tool : string) (c : ExnClass) (msg : string)
    : string :=
  match c with
  | FileNotFoundError =>
      "Error: " +:+ tool +:+
      " not found. Please ensure it is installed and in your PATH."
  | _ =>
      "An unexpected error occurred while running " +:+ tool +:+ ": " +:+ msg
  end.

(** The command lines of a request, one per occurrence of a supported
    tool, in order. *)
Definition commands_for (args : Args) : list (list string) :=
  omap (fun tool =>
          build_command tool (target args) (ignore args) (output args)
                        (offensive args))
       (tools args).

(** The two phases of [main]: lines 147-154 and lines 156-189. *)
Definition validation (args : Args) : M unit :=
  exec (do ok <- validate_target (target args); when (negb ok) (sys_exit 1));
  exec (do ok <- validate_tools (tools args); when (negb ok) (sys_exit 1));
  if truthy_list (ignore args) then
    do ok <- validate_ignore_paths (ignore args);
    when (negb ok) (sys_exit 1)
  else ret tt.

Definition execution (args : Args) : M unit :=
  do results <- run_tools args (tools args) [];
  exec report args results;
  logging_info "Analysis complete.".

(** Events of the validation phase: log records and existence tests. *)
Definition validation_event (e : Event) : bool :=
  match e with
  | EvLog _ _ | EvExists _ => true
  | _ => false
  end.

(** Events of the execution phase: anything but an existence test. *)
Definition execution_event (e : Event) : bool := negb (is_probe e).

Definition is_log (e : Event) : bool :=
  match e with EvLog _ _ => true | _ => false end.

(** The dictionary a list of assignments builds, from [results]. *)
Definition assign_all (l : list (string * ToolResult))
    (results : dict ToolResult) : dict ToolResult :=
  fold_left (fun d '(t, r) => dict_set t r d) l results.

(** The report can be written: [open(path, "w")] succeeds on [f]. *)
Definition output_unwritable (args : Args) (f : FileSystem) : bool :=
  truthy_str (output args) && negb (can_open_w f (the_str (output args))).

(** Events that neither start a process, test a path nor open a file. *)
Definition passive_event (e : Event) : bool :=
  match e with
  | EvLog _ _ | EvWrite _ _ | EvPrint _ => true
  | _ => false
  end.

(** The file system once the report has been written on [path]. *)
Definition with_report (f : FileSystem) (path text : string) : FileSystem :=
  mkFS (<[path := File text]> (nodes f)) (readonly f).

(** Events that, moreover, print nothing. *)
Definition silent_event (e : Event) : bool :=
  match e with
  | EvLog _ _ | EvWrite _ _ => true
  | _ => false
  end.

(** The stages of a run started in [w]: the world once validation is
    over, the executions of the loop from there, the dictionary they
    leave in [results], and the world when the loop is over. *)
Definition after_validation (args : Args) (w : World) : World :=
  (validation args w).2.

Definition run_executions (args : Args) (w : World)
    : list (string * ToolResult) * World :=
  executions args (tools args) (after_validation args w).

Definition result_set (args : Args) (w : World) : dict ToolResult :=
  assign_all (run_executions args w).1 [].

Definition after_tools (args : Args) (w : World) : World :=
  (run_executions args w).2.

(** The last record of a complete run. *)
Definition final_log : Event := EvLog INFO "Analysis complete.".

Definition is_print (e : Event) : bool :=
  match e with EvPrint _ => true | _ => false end.

(** *** Quantities the further properties speak about *)

(** The first requested tool [validate_tools] rejects. *)
Definition first_invalid (tools : list string) : option string :=
  List.find (fun t => negb (contains t valid_tools)) tools.

(** The first ignore path that does not exist. *)
Definition first_missing (f : FileSystem) (paths : list string)
    : option string :=
  List.find (fun p => negb (path_exists f p)) paths.

(** The ignore paths up to the first missing one, that one included. *)
Fixpoint probes_until_missing (f : FileSystem) (paths : list string)
    : list string :=
  match paths with
  | [] => []
  | p :: rest =>
      p :: (if path_exists f p then probes_until_missing f rest else [])
  end.

(** The log records of a trace, in order. *)
Fixpoint logged (t : list Event) : list (Level * string) :=
  match t with
  | [] => []
  | EvLog lvl msg :: t' => (lvl, msg) :: logged t'
  | _ :: t' => logged t'
  end.

(** What the loop logs about a result (lines 162-165). *)
Definition warning_events (tool : string) (rc : Z) (err : string)
    : list Event :=
  if (rc =? 0)%Z then []
  else EvLog WARNING
         (tool +:+ " returned a non-zero exit code: " +:+ str_int rc) ::
       (if nonempty_str err
        then [EvLog ERROR (tool +:+ " stderr: " +:+ err)] else []).

(** The namespace [parse_args] builds from the declarations of
    [setup_argparse] (lines 18-23) when only the positional argument is
    given: [--tools] has its declared default, [--output] and [--ignore]
    are [None], and the [store_true] flag [--offensive] is [False]. *)
Definition default_namespace (target : string) : Args :=
  mkArgs target ["bandit"; "flake8"; "pylint"] None None false.

(** The paths written to, one per [write], in order. *)
Fixpoint written (t : list Event) : list string :=
  match t with
  | [] => []
  | EvWrite p _ :: t' => p :: written t'
  | _ :: t' => written t'
  end.

(** An event other than a write, or a write to [path] when writing is
    [allowed]. *)
Definition writes_to (path : string) (allowed : bool) (e : Event) : bool :=
  match e with
  | EvWrite q _ => allowed && bool_decide (q = path)
  | _ => true
  end.

(** What one tool gives on a file system, read off the child process
    alone: its result record and the file system it leaves. *)
Definition tool_outcome (args : Args) (tool : string) (f : FileSystem)
    : ToolResult * FileSystem :=
  match build_command tool (target args) (ignore args) (output args)
                      (offensive args) with
  | None => (mkResult 1 EmptyString ("Unsupported tool: " +:+ tool), f)
  | Some command =>
      match popen_oracle command f with
      | (Completed rc out err, f') =>
          (mkResult rc (decode_utf8_ignore out) (decode_utf8_ignore err), f')
      | (LaunchFailed _ msg, f') => (mkResult 1 EmptyString msg, f')
      end
  end.

(** The tools of a request run one after the other, each on the file
    system the one before left. *)
Fixpoint outcomes (args : Args) (todo : list string) (f : FileSystem)
    : list (string * ToolResult) * FileSystem :=
  match todo with
  | [] => ([], f)
  | tool :: rest =>
      let '(r, f1) := tool_outcome args tool f in
      let '(l, f2) := outcomes args rest f1 in
      ((tool, r) :: l, f2)
  end.

(** The record [validate_tools] logs for a rejected tool. *)
Definition invalid_tool_log (tool : string) : Event :=
  EvLog ERROR
    ("Error: Invalid tool '" +:+ tool +:+
     "'. Valid tools are: ['bandit', 'flake8', 'pylint']").

(** The record [validate_target] logs for a missing target. *)
Definition missing_target_log (target : string) : Event :=
  EvLog ERROR ("Error: Target '" +:+ target +:+ "' does not exist.").

(** The record [validate_ignore_paths] logs for a missing path. *)
Definition missing_ignore_log (path : string) : Event :=
  EvLog ERROR ("Error: Ignore path '" +:+ path +:+ "' does not exist.").

(** ** Properties *)

(** *** Traces *)

Lemma spawned_app t1 t2 : spawned (t1 ++ t2) = spawned t1 ++ spawned t2.
Proof.
  induction t1 as [|e t1 IH]; [reflexivity|].
  destruct e; simpl; rewrite IH; reflexivity.
Qed.

Lemma probed_app t1 t2 : probed (t1 ++ t2) = probed t1 ++ probed t2.
Proof.
  induction t1 as [|e t1 IH]; [reflexivity|].
  destruct e; simpl; rewrite IH; reflexivity.
Qed.

Lemma opened_app t1 t2 : opened (t1 ++ t2) = opened t1 ++ opened t2.
Proof.
  induction t1 as [|e t1 IH]; [reflexivity|].
  destruct e; simpl; rewrite IH; reflexivity.
Qed.

Lemma string_app_cons x (a b : string) :
  String x a +:+ b = String x (a +:+ b).
Proof. reflexivity. Qed.

Lemma string_app_assoc (a b c : string) : (a +:+ b) +:+ c = a +:+ (b +:+ c).
Proof.
  induction a as [|x a IH]; [reflexivity|].
  rewrite !string_app_cons. f_equal. exact IH.
Qed.

Lemma string_app_nil_r (a : string) : a +:+ EmptyString = a.
Proof.
  induction a as [|x a IH]; [reflexivity|].
  rewrite string_app_cons. f_equal. exact IH.
Qed.

Lemma printed_app t1 t2 : printed (t1 ++ t2) = printed t1 +:+ printed t2.
Proof.
  induction t1 as [|e t1 IH]; [reflexivity|].
  destruct e; simpl; rewrite ?IH, ?string_app_assoc; reflexivity.
Qed.

Lemma spawned_none t : forallb (fun e => negb (is_spawn e)) t = true ->
  spawned t = [].
Proof.
  induction t as [|e t IH]; [reflexivity|].
  destruct e; simpl; try discriminate; exact IH.
Qed.

(** *** A small program logic: what a computation may add to the trace *)

(** [m] only appends events, and every event it appends satisfies [p]. *)
Definition emits {A} (p : Event -> bool) (m : M A) : Prop :=
  forall w, exists evs,
    trace (m w).2 = trace w ++ evs /\ forallb p evs = true.

Lemma emits_ret {A} p (a : A) : emits p (ret a).
Proof. intros w. exists []. simpl. by rewrite app_nil_r. Qed.

Lemma emits_raise {A} p e : emits p (@raise A e).
Proof. intros w. exists []. simpl. by rewrite app_nil_r. Qed.

Lemma emits_emit p e : p e = true -> emits p (emit e).
Proof. intros H w. exists [e]. simpl. by rewrite H. Qed.

Lemma emits_bind {A B} p (m : M A) (k : A -> M B) :
  emits p m -> (forall a, emits p (k a)) -> emits p (bind m k).
Proof.
  intros Hm Hk w. unfold bind.
  destruct (Hm w) as (e1 & H1 & P1).
  destruct (m w) as [[a|e] w1]; simpl in *.
  - destruct (Hk a w1) as (e2 & H2 & P2).
    exists (e1 ++ e2). rewrite H2, H1, app_assoc. split; [reflexivity|].
    rewrite forallb_app, P1, P2. reflexivity.
  - exists e1. auto.
Qed.

Lemma emits_try_except {A} p (m : M A) h :
  emits p m -> (forall e k, h e = Some k -> emits p k) ->
  emits p (try_except m h).
Proof.
  intros Hm Hh w. unfold try_except.
  destruct (Hm w) as (e1 & H1 & P1).
  destruct (m w) as [[a|e] w1]; simpl in *.
  - exists e1. auto.
  - destruct (h e) as [k|] eqn:E; simpl.
    + destruct (Hh e k E w1) as (e2 & H2 & P2).
      exists (e1 ++ e2). rewrite H2, H1, app_assoc. split; [reflexivity|].
      rewrite forallb_app, P1, P2. reflexivity.
    + exists e1. auto.
Qed.

Lemma emits_when p b m : emits p m -> emits p (when b m).
Proof. destruct b; simpl; [auto|]. intros _. apply emits_ret. Qed.

Lemma emits_for_each {A} p (l : list A) body :
  (forall x, emits p (body x)) -> emits p (for_each l body).
Proof.
  intros H. induction l as [|x l IH]; simpl.
  - apply emits_ret.
  - apply emits_bind; auto.
Qed.

Lemma emits_log p lvl msg : p (EvLog lvl msg) = true ->
  emits p (logging_log lvl msg).
Proof. intros H. apply emits_when, emits_emit, H. Qed.

(** *** Command lines *)

Lemma extend_exclusions_flat (command ignore : list string) :
  extend_exclusions command ignore =
  command ++ concat (map (fun i => ["-x"; i]) ignore).
Proof.
  unfold extend_exclusions, extend. revert command.
  induction ignore as [|i l IH]; intros command; simpl.
  - by rewrite app_nil_r.
  - rewrite IH, <- app_assoc. reflexivity.
Qed.

(** The shape of the three command lines, with every optional part made
    explicit. *)
Lemma bandit_command_shape target ignore output offensive :
  bandit_command target ignore output offensive =
  ["bandit"; "-r"; target; "-q"] ++
  (if offensive then ["-s"; offensive_rules] else []) ++
  concat (map (fun i => ["-x"; i]) (the_list ignore)) ++
  (if truthy_str output then ["-o"; the_str output; "-f"; "txt"] else []).
Proof.
  unfold bandit_command, extend.
  assert (E : forall c : list string,
    (if truthy_list ignore then extend_exclusions c (the_list ignore) else c)
    = c ++ concat (map (fun i => ["-x"; i]) (the_list ignore))).
  { intros c. destruct ignore as [[|i l]|]; simpl;
      rewrite ?app_nil_r; [reflexivity| |reflexivity].
    change (extend_exclusions c (i :: l) = c ++ concat (map (fun i => ["-x"; i]) (i :: l))).
    apply extend_exclusions_flat. }
  rewrite E.
  destruct offensive, (truthy_str output);
    rewrite ?app_nil_r, <- ?app_assoc; reflexivity.
Qed.

Lemma flake8_command_shape target ignore output :
  flake8_command target ignore output =
  ["flake8"; target] ++
  (if truthy_list ignore then ["--exclude"; join "," (the_list ignore)]
   else []) ++
  (if truthy_str output then ["--output-file"; the_str output] else []).
Proof.
  unfold flake8_command, extend.
  destruct (truthy_list ignore), (truthy_str output); reflexivity.
Qed.

Lemma pylint_command_shape target ignore output :
  pylint_command target ignore output =
  ["pylint"; target; "--disable=all"; "--enable=security"; "--reports=n"] ++
  (if truthy_list ignore then ["--ignore"; join "," (the_list ignore)]
   else []) ++
  (if truthy_str output then ["--output"; the_str output] else []).
Proof.
  unfold pylint_command, extend.
  destruct (truthy_list ignore), (truthy_str output); reflexivity.
Qed.

Lemma supported_cases (tool : string) :
  tool ∈ supported_tools ->
  tool = "bandit" \/ tool = "flake8" \/ tool = "pylint".
Proof.
  unfold supported_tools. rewrite !elem_of_cons, elem_of_nil. tauto.
Qed.

Lemma build_command_supported tool target ignore output offensive :
  tool ∈ supported_tools ->
  is_Some (build_command tool target ignore output offensive).
Proof.
  intros H. destruct (supported_cases _ H) as [-> | [-> | ->]]; eexists;
    reflexivity.
Qed.

Lemma build_command_unsupported tool target ignore output offensive :
  tool ∉ supported_tools ->
  build_command tool target ignore output offensive = None.
Proof.
  unfold supported_tools. rewrite !not_elem_of_cons. intros (H1 & H2 & H3 & _).
  unfold build_command. repeat case_decide; congruence.
Qed.

Lemma contains_supported tool :
  contains tool valid_tools = true <-> tool ∈ supported_tools.
Proof. unfold contains. rewrite bool_decide_eq_true. reflexivity. Qed.

(** *** [run_tool], equationally *)

Lemma run_tool_unsupported tool target ignore output offensive w :
  build_command tool target ignore output offensive = None ->
  run_tool tool target ignore output offensive w =
  (Ok (1%Z, EmptyString, "Unsupported tool: " +:+ tool),
   mkWorld (fs w)
     (trace w ++
      [EvLog ERROR
         (launch_error_log tool ValueError ("Unsupported tool: " +:+ tool))])).
Proof.
  intros H. unfold run_tool, try_except, run_tool_body, bind.
  rewrite H. reflexivity.
Qed.

Lemma run_tool_supported tool target ignore output offensive command w :
  build_command tool target ignore output offensive = Some command ->
  run_tool tool target ignore output offensive w =
  match popen_oracle command (fs w) with
  | (Completed rc out err, f') =>
      (Ok (rc, decode_utf8_ignore out, decode_utf8_ignore err),
       mkWorld f'
         (trace w ++
          [EvLog INFO ("Running: " +:+ join " " command); EvSpawn command]))
  | (LaunchFailed c msg, f') =>
      (Ok (1%Z, EmptyString, msg),
       mkWorld f'
         (trace w ++
          [EvLog INFO ("Running: " +:+ join " " command); EvSpawn command;
           EvLog ERROR (launch_error_log tool c msg)]))
  end.
Proof.
  intros H. unfold run_tool, try_except, run_tool_body, bind.
  rewrite H. unfold popen_communicate, bind. simpl.
  destruct (popen_oracle command (fs w)) as [[rc out err|c msg] f']; simpl.
  - rewrite <- app_assoc. reflexivity.
  - destruct c; unfold bind; simpl; rewrite <- !app_assoc; reflexivity.
Qed.

(** [run_tool] returns a result whatever happens: no exception leaves it. *)
Lemma run_tool_returns tool target ignore output offensive w :
  exists r, (run_tool tool target ignore output offensive w).1 = Ok r.
Proof.
  destruct (build_command tool target ignore output offensive) as [command|]
    eqn:E.
  - rewrite (run_tool_supported _ _ _ _ _ _ _ E).
    destruct (popen_oracle command (fs w)) as [[rc out err|c msg] f'];
      eexists; reflexivity.
  - rewrite (run_tool_unsupported _ _ _ _ _ _ E). eexists; reflexivity.
Qed.

(** *** The loop over the requested tools *)

Lemma run_tools_cons args tool rest results w :
  run_tools args (tool :: rest) results w =
  match iteration args tool w with
  | (Ok r, w') => run_tools args rest (dict_set tool r results) w'
  | (Raised e, w') => (Raised e, w')
  end.
Proof.
  simpl. unfold iteration, bind.
  destruct (logging_info _ w) as [[[]|e] w0]; [|reflexivity].
  destruct (run_tool _ _ _ _ _ w0) as [[[[rc out] err]|e] w1]; [|reflexivity].
  destruct (when _ _ w1) as [[[]|e] w2]; reflexivity.
Qed.

Lemma emits_weaken {A} (p q : Event -> bool) (m : M A) :
  (forall e, p e = true -> q e = true) -> emits p m -> emits q m.
Proof.
  intros Hpq Hm w. destruct (Hm w) as (evs & E & P). exists evs.
  split; [exact E|]. rewrite forallb_forall in *. auto.
Qed.

Lemma emits_run_tool tool target ignore output offensive :
  emits (fun e => is_log e || is_spawn e)
        (run_tool tool target ignore output offensive).
Proof.
  intros w.
  destruct (build_command tool target ignore output offensive) as [command|]
    eqn:E.
  - rewrite (run_tool_supported _ _ _ _ _ _ _ E).
    destruct (popen_oracle command (fs w)) as [[rc out err|c msg] f'];
      eexists; split; reflexivity.
  - rewrite (run_tool_unsupported _ _ _ _ _ _ E). eexists; split; reflexivity.
Qed.

Lemma emits_iteration args tool :
  emits (fun e => is_log e || is_spawn e) (iteration args tool).
Proof.
  unfold iteration.
  apply emits_bind; [by apply emits_log|intros _].
  apply emits_bind; [apply emits_run_tool|intros [[rc out] err]].
  apply emits_bind; [|intros _; apply emits_ret].
  apply emits_when, emits_bind; [by apply emits_log|intros _].
  apply emits_when. by apply emits_log.
Qed.

(** A turn of the loop always completes, with the result [run_tool] gave
    it, and starts exactly the command line of its tool (none for a tool
    that has no command line). *)
Lemma iteration_spec args tool w :
  exists rc out err w',
    iteration args tool w = (Ok (mkResult rc out err), w') /\
    spawned (trace w') =
    spawned (trace w) ++
    option_list (build_command tool (target args) (ignore args)
                               (output args) (offensive args)).
Proof.
  unfold iteration, bind. simpl.
  set (w0 := mkWorld (fs w) _).
  assert (S0 : spawned (trace w0) = spawned (trace w)).
  { unfold w0. simpl. rewrite spawned_app. simpl. by rewrite app_nil_r. }
  clearbody w0.
  destruct (build_command tool (target args) (ignore args) (output args)
              (offensive args)) as [command|] eqn:E.
  - rewrite (run_tool_supported _ _ _ _ _ _ _ E).
    destruct (popen_oracle command (fs w0)) as [[rc out err|c msg] f'].
    + exists rc, (decode_utf8_ignore out), (decode_utf8_ignore err).
      destruct (rc =? 0)%Z; simpl.
      * eexists; split; [reflexivity|]. simpl.
        rewrite !spawned_app, S0. reflexivity.
      * destruct (nonempty_str (decode_utf8_ignore err)); simpl;
          (eexists; split; [reflexivity|]); simpl;
          rewrite !spawned_app, S0; simpl; rewrite ?app_nil_r; reflexivity.
    + exists 1%Z, EmptyString, msg. simpl.
      destruct (nonempty_str msg); simpl;
        (eexists; split; [reflexivity|]); simpl;
        rewrite !spawned_app, S0; simpl; rewrite ?app_nil_r; reflexivity.
  - rewrite (run_tool_unsupported _ _ _ _ _ _ E). simpl.
    exists 1%Z, EmptyString, ("Unsupported tool: " +:+ tool).
    destruct (nonempty_str ("Unsupported tool: " +:+ tool)); simpl;
      (eexists; split; [reflexivity|]); simpl;
      rewrite !spawned_app, S0; simpl; rewrite ?app_nil_r; reflexivity.
Qed.

Lemma run_tools_spec args todo results w :
  run_tools args todo results w =
  (Ok (assign_all (executions args todo w).1 results),
   (executions args todo w).2).
Proof.
  revert results w. induction todo as [|tool rest IH]; intros results w.
  - reflexivity.
  - rewrite run_tools_cons. cbn [executions].
    destruct (iteration_spec args tool w) as (rc & out & err & w' & E & _).
    rewrite E, IH.
    destruct (executions args rest w') as [l w'']. reflexivity.
Qed.

Lemma executions_tools args todo w :
  (executions args todo w).1.*1 = todo.
Proof.
  revert w. induction todo as [|tool rest IH]; intros w; [reflexivity|].
  cbn [executions].
  destruct (iteration_spec args tool w) as (rc & out & err & w' & E & _).
  rewrite E. specialize (IH w').
  destruct (executions args rest w') as [l w'']. simpl in *.
  f_equal. exact IH.
Qed.

Lemma executions_spawned args todo w :
  spawned (trace (executions args todo w).2) =
  spawned (trace w) ++
  omap (fun tool =>
          build_command tool (target args) (ignore args) (output args)
                        (offensive args)) todo.
Proof.
  revert w. induction todo as [|tool rest IH]; intros w.
  - simpl. by rewrite app_nil_r.
  - cbn [executions].
    destruct (iteration_spec args tool w) as (rc & out & err & w' & E & S').
    rewrite E. specialize (IH w').
    destruct (executions args rest w') as [l w'']. simpl in *.
    rewrite IH, S'.
    destruct (build_command tool _ _ _ _); simpl;
      rewrite <- ?app_assoc, ?app_nil_r; reflexivity.
Qed.

Lemma emits_run_tools args todo results :
  emits (fun e => is_log e || is_spawn e) (run_tools args todo results).
Proof.
  revert results. induction todo as [|tool rest IH]; intros results.
  - apply emits_ret.
  - intros w. rewrite run_tools_cons.
    destruct (emits_iteration args tool w) as (e1 & H1 & P1).
    destruct (iteration args tool w) as [[r|e] w1]; simpl in *.
    + destruct (IH (dict_set tool r results) w1) as (e2 & H2 & P2).
      exists (e1 ++ e2). rewrite H2, H1, app_assoc. split; [reflexivity|].
      rewrite forallb_app, P1, P2. reflexivity.
    + exists e1. auto.
Qed.

(** *** The validation phase *)

Lemma world_eta w : mkWorld (fs w) (trace w ++ []) = w.
Proof. destruct w. simpl. by rewrite app_nil_r. Qed.

Lemma validate_target_spec t w :
  exists evs,
    validate_target t w =
    (Ok (path_exists (fs w) t), mkWorld (fs w) (trace w ++ evs)) /\
    forallb validation_event evs = true.
Proof.
  unfold validate_target, os_path_exists, bind, path_exists. simpl.
  destruct (bool_decide _); simpl.
  - exists [EvExists t]. split; reflexivity.
  - exists [EvExists t;
            EvLog ERROR ("Error: Target '" +:+ t +:+ "' does not exist.")].
    rewrite <- app_assoc. split; reflexivity.
Qed.

Lemma validate_tools_spec l w :
  exists evs,
    validate_tools l w =
    (Ok (forallb (fun t => contains t supported_tools) l),
     mkWorld (fs w) (trace w ++ evs)) /\
    forallb validation_event evs = true.
Proof.
  induction l as [|tool rest IH].
  - exists []. simpl. rewrite world_eta. split; reflexivity.
  - simpl. change valid_tools with supported_tools.
    destruct (contains tool supported_tools); simpl.
    + exact IH.
    + eexists. split; reflexivity.
Qed.

Lemma validate_paths_spec l w :
  exists evs,
    validate_paths l w =
    (Ok (forallb (path_exists (fs w)) l), mkWorld (fs w) (trace w ++ evs)) /\
    forallb validation_event evs = true.
Proof.
  revert w. induction l as [|path rest IH]; intros w.
  - exists []. simpl. rewrite world_eta. split; reflexivity.
  - simpl. unfold os_path_exists, bind, path_exists at 1. simpl.
    destruct (bool_decide _); simpl.
    + destruct (IH (mkWorld (fs w) (trace w ++ [EvExists path])))
        as (evs & E & P).
      simpl in E. exists (EvExists path :: evs). rewrite E.
      rewrite <- app_assoc. split; [reflexivity|exact P].
    + eexists. rewrite <- app_assoc. split; reflexivity.
Qed.

(** The validation phase ends in [sys.exit(1)] exactly when one of the
    three checks fails; it only logs and tests paths, and it leaves the
    file system as it found it. *)
Lemma validation_spec args w :
  exists evs,
    validation args w =
    (if validation_fails args (fs w) then Raised (SystemExit 1) else Ok tt,
     mkWorld (fs w) (trace w ++ evs)) /\
    forallb validation_event evs = true.
Proof.
  unfold validation, validation_fails, target_missing, invalid_tool_given,
    ignore_path_missing, bind.
  destruct (validate_target_spec (target args) w) as (e1 & E1 & P1).
  rewrite E1. destruct (path_exists (fs w) (target args)); simpl.
  2: { exists e1. split; [reflexivity|exact P1]. }
  set (w1 := mkWorld (fs w) (trace w ++ e1)).
  destruct (validate_tools_spec (tools args) w1) as (e2 & E2 & P2).
  rewrite E2. simpl.
  destruct (forallb _ (tools args)); simpl.
  2: { exists (e1 ++ e2). rewrite app_assoc, forallb_app, P1, P2.
       split; reflexivity. }
  destruct (ignore args) as [[|p l]|]; simpl.
  - exists (e1 ++ e2). rewrite app_assoc, forallb_app, P1, P2.
    split; reflexivity.
  - set (w2 := mkWorld (fs w) ((trace w ++ e1) ++ e2)).
    destruct (validate_paths_spec (p :: l) w2) as (e3 & E3 & P3).
    simpl in E3. rewrite E3. simpl.
    exists (e1 ++ e2 ++ e3).
    rewrite !app_assoc, !forallb_app, P1, P2, P3.
    destruct (path_exists (fs w) p && forallb (path_exists (fs w)) l);
      split; reflexivity.
  - exists (e1 ++ e2). rewrite app_assoc, forallb_app, P1, P2.
    split; reflexivity.
Qed.

Lemma main_split args w :
  main args w =
  match validation args w with
  | (Ok _, w1) => execution args w1
  | (Raised e, w1) => (Raised e, w1)
  end.
Proof.
  unfold main, validation, execution, bind.
  destruct (validate_target (target args) w) as [[ok1|e] w1]; [|reflexivity].
  destruct (when (negb ok1) (sys_exit 1) w1) as [[[]|e] w2]; [|reflexivity].
  destruct (validate_tools (tools args) w2) as [[ok2|e] w3]; [|reflexivity].
  destruct (when (negb ok2) (sys_exit 1) w3) as [[[]|e] w4]; [|reflexivity].
  destruct (truthy_list (ignore args)).
  - destruct (validate_ignore_paths (ignore args) w4) as [[ok3|e] w5];
      [|reflexivity].
    destruct (when (negb ok3) (sys_exit 1) w5) as [[[]|e] w6]; reflexivity.
  - reflexivity.
Qed.

(** *** The report *)

Lemma file_write_spec f data w m0 s :
  nodes (fs w) = <[f := File s]> m0 ->
  file_write f data w =
  (Ok tt,
   mkWorld (mkFS (<[f := File (s +:+ data)]> m0) (readonly (fs w)))
           (trace w ++ [EvWrite f data])).
Proof.
  intros H. unfold file_write, bind. simpl.
  rewrite H, lookup_insert_eq, insert_insert_eq. reflexivity.
Qed.

Lemma write_block_spec f item w m0 s :
  nodes (fs w) = <[f := File s]> m0 ->
  exists evs,
    write_block f item w =
    (Ok tt,
     mkWorld (mkFS (<[f := File (s +:+ report_block item.1 item.2)]> m0)
                   (readonly (fs w)))
             (trace w ++ evs)) /\
    forallb silent_event evs = true.
Proof.
  intros H. destruct item as [tool r]. unfold write_block, bind.
  rewrite (file_write_spec _ _ _ _ _ H).
  erewrite file_write_spec by reflexivity.
  erewrite file_write_spec by reflexivity.
  erewrite file_write_spec by reflexivity.
  erewrite file_write_spec by reflexivity.
  simpl. eexists. split.
  - rewrite <- !app_assoc. unfold report_block.
    rewrite !string_app_assoc. reflexivity.
  - reflexivity.
Qed.

Lemma write_all_spec f items w m0 s :
  nodes (fs w) = <[f := File s]> m0 ->
  exists evs,
    for_each items (write_block f) w =
    (Ok tt,
     mkWorld (mkFS (<[f := File (s +:+ report_text items)]> m0)
                   (readonly (fs w)))
             (trace w ++ evs)) /\
    forallb silent_event evs = true.
Proof.
  revert w s. induction items as [|item items IH]; intros w s H.
  - exists []. simpl. rewrite string_app_nil_r, app_nil_r.
    destruct w as [[n r] t]. simpl in *. subst n. split; reflexivity.
  - simpl. unfold bind.
    destruct (write_block_spec f item w m0 s H) as (e1 & E1 & P1).
    rewrite E1.
    match goal with
    | |- context [for_each items (write_block f) ?w0] =>
        edestruct (IH w0) as (e2 & E2 & P2); [reflexivity|]
    end.
    rewrite E2. simpl. exists (e1 ++ e2).
    rewrite app_assoc, forallb_app, P1, P2. split; [|reflexivity].
    destruct item as [tool r]. simpl.
    rewrite string_app_assoc. reflexivity.
Qed.

Lemma print_all_spec items w :
  exists evs,
    for_each items print_block w = (Ok tt, mkWorld (fs w) (trace w ++ evs)) /\
    printed evs = report_text items /\
    forallb passive_event evs = true.
Proof.
  revert w. induction items as [|[tool r] items IH]; intros w.
  - exists []. simpl. rewrite world_eta. repeat split; reflexivity.
  - simpl. unfold bind. simpl.
    match goal with
    | |- context [for_each items print_block ?w0] =>
        destruct (IH w0) as (e2 & E2 & T2 & P2)
    end.
    rewrite E2. simpl.
    eexists (_ :: _ :: _ :: _ :: _ :: e2). split; [|split].
    + rewrite <- !app_assoc. reflexivity.
    + simpl. rewrite T2. unfold report_block.
      rewrite !string_app_assoc. reflexivity.
    + exact P2.
Qed.

Lemma printed_silent evs :
  forallb silent_event evs = true -> printed evs = EmptyString.
Proof.
  induction evs as [|e l IH]; [reflexivity|].
  destruct e; simpl; try discriminate; exact IH.
Qed.

Lemma silent_passive e : silent_event e = true -> passive_event e = true.
Proof. destruct e; simpl; congruence. Qed.

(** The report goes to the file when [args.output] is truthy and the file
    can be opened: the file then holds exactly the report text. *)
Lemma report_to_file args results w :
  truthy_str (output args) = true ->
  can_open_w (fs w) (the_str (output args)) = true ->
  exists evs,
    report args results w =
    (Ok tt,
     mkWorld (with_report (fs w) (the_str (output args))
                          (report_text (dict_items results)))
             (trace w ++ EvOpen (the_str (output args)) :: evs)) /\
    forallb silent_event evs = true.
Proof.
  intros T C. unfold report. rewrite T.
  unfold try_except, bind, with_open_w, open_w, bind. simpl. rewrite C.
  match goal with
  | |- context [for_each ?items (write_block ?f) ?w0] =>
      edestruct (write_all_spec f items w0) as (e1 & E1 & P1);
        [reflexivity|]
  end.
  rewrite E1. simpl.
  exists (e1 ++ [EvLog INFO ("Results written to " +:+ the_str (output args))]).
  split.
  - rewrite <- !app_assoc. reflexivity.
  - rewrite forallb_app, P1. reflexivity.
Qed.

(** When the file cannot be opened the program logs the error and exits
    with status 1; nothing is written. *)
Lemma report_unwritable args results w :
  truthy_str (output args) = true ->
  can_open_w (fs w) (the_str (output args)) = false ->
  exists msg,
    report args results w =
    (Raised (SystemExit 1),
     mkWorld (fs w)
       (trace w ++ [EvOpen (the_str (output args)); EvLog ERROR msg])).
Proof.
  intros T C. unfold report. rewrite T.
  unfold try_except, bind, with_open_w, open_w, bind. simpl. rewrite C.
  simpl. eexists. rewrite <- app_assoc. reflexivity.
Qed.

(** Without an output path the same text goes to standard output. *)
Lemma report_to_stdout args results w :
  truthy_str (output args) = false ->
  exists evs,
    report args results w = (Ok tt, mkWorld (fs w) (trace w ++ evs)) /\
    printed evs = report_text (dict_items results) /\
    forallb passive_event evs = true.
Proof.
  intros T. unfold report. rewrite T. apply print_all_spec.
Qed.

(** *** [main], phase by phase *)

Lemma after_validation_spec args w :
  exists pre,
    after_validation args w = mkWorld (fs w) (trace w ++ pre) /\
    forallb validation_event pre = true.
Proof.
  unfold after_validation.
  destruct (validation_spec args w) as (pre & E & P).
  exists pre. rewrite E. split; [reflexivity|exact P].
Qed.

Lemma main_invalid args w :
  validation_fails args (fs w) = true ->
  main args w = (Raised (SystemExit 1), after_validation args w).
Proof.
  intros H. rewrite main_split. unfold after_validation.
  destruct (validation_spec args w) as (pre & E & _).
  rewrite E, H. reflexivity.
Qed.

Lemma main_valid args w :
  validation_fails args (fs w) = false ->
  main args w = execution args (after_validation args w).
Proof.
  intros H. rewrite main_split. unfold after_validation.
  destruct (validation_spec args w) as (pre & E & _).
  rewrite E, H. reflexivity.
Qed.

Lemma loop_spec args w :
  run_tools args (tools args) [] (after_validation args w) =
  (Ok (result_set args w), after_tools args w).
Proof. apply run_tools_spec. Qed.

Lemma after_tools_trace args w :
  exists evs,
    trace (after_tools args w) = trace (after_validation args w) ++ evs /\
    forallb (fun e => is_log e || is_spawn e) evs = true.
Proof.
  destruct (emits_run_tools args (tools args) [] (after_validation args w))
    as (evs & E & P).
  rewrite loop_spec in E. eauto.
Qed.

Lemma after_tools_spawned args w :
  spawned (trace (after_tools args w)) = spawned (trace w) ++ commands_for args.
Proof.
  unfold after_tools, run_executions. rewrite executions_spawned.
  destruct (after_validation_spec args w) as (pre & E & P).
  rewrite E. simpl. rewrite spawned_app.
  replace (spawned pre) with (@nil (list string)); [by rewrite app_nil_r|].
  symmetry. apply spawned_none.
  rewrite forallb_forall in *. intros e He. specialize (P e He).
  destruct e; simpl in *; congruence.
Qed.

Lemma logging_info_eq msg w :
  logging_info msg w =
  (Ok tt, mkWorld (fs w) (trace w ++ [EvLog INFO msg])).
Proof. reflexivity. Qed.

Lemma main_file_ok args w :
  validation_fails args (fs w) = false ->
  truthy_str (output args) = true ->
  can_open_w (fs (after_tools args w)) (the_str (output args)) = true ->
  exists evs,
    main args w =
    (Ok tt,
     mkWorld (with_report (fs (after_tools args w)) (the_str (output args))
                          (report_text (dict_items (result_set args w))))
             (trace (after_tools args w) ++
              EvOpen (the_str (output args)) :: evs)) /\
    forallb silent_event evs = true.
Proof.
  intros V T C. rewrite (main_valid _ _ V). unfold execution, bind.
  rewrite loop_spec.
  destruct (report_to_file args (result_set args w) _ T C) as (evs & E & P).
  rewrite E. simpl. exists (evs ++ [final_log]). split.
  - rewrite logging_info_eq. simpl. rewrite <- app_assoc. reflexivity.
  - rewrite forallb_app, P. reflexivity.
Qed.

Lemma main_file_unwritable args w :
  validation_fails args (fs w) = false ->
  truthy_str (output args) = true ->
  can_open_w (fs (after_tools args w)) (the_str (output args)) = false ->
  exists msg,
    main args w =
    (Raised (SystemExit 1),
     mkWorld (fs (after_tools args w))
       (trace (after_tools args w) ++
        [EvOpen (the_str (output args)); EvLog ERROR msg])).
Proof.
  intros V T C. rewrite (main_valid _ _ V). unfold execution, bind.
  rewrite loop_spec.
  destruct (report_unwritable args (result_set args w) _ T C) as (msg & E).
  rewrite E. eauto.
Qed.

Lemma main_stdout args w :
  validation_fails args (fs w) = false ->
  truthy_str (output args) = false ->
  exists evs,
    main args w =
    (Ok tt,
     mkWorld (fs (after_tools args w)) (trace (after_tools args w) ++ evs)) /\
    printed evs = report_text (dict_items (result_set args w)) /\
    forallb passive_event evs = true.
Proof.
  intros V T. rewrite (main_valid _ _ V). unfold execution, bind.
  rewrite loop_spec.
  destruct (report_to_stdout args (result_set args w) (after_tools args w) T)
    as (evs & E & Pr & P).
  rewrite E. simpl. exists (evs ++ [final_log]). split; [|split].
  - rewrite logging_info_eq. simpl. rewrite <- app_assoc. reflexivity.
  - rewrite printed_app, Pr. simpl. apply string_app_nil_r.
  - rewrite forallb_app, P. reflexivity.
Qed.

(** *** The [results] dictionary *)

Lemma dict_keys_set {V} (k : string) (v : V) (d : dict V) :
  dict_keys (dict_set k v d) =
  if decide (k ∈ dict_keys d) then dict_keys d else dict_keys d ++ [k].
Proof.
  unfold dict_keys. induction d as [|[k' v'] d IH].
  - destruct (decide (k ∈ ([] : dict V).*1)) as [Hin|_]; [|reflexivity].
    by apply elem_of_nil in Hin.
  - cbn [dict_set]. destruct (decide (k = k')) as [->|Hne].
    + destruct (decide (k' ∈ ((k', v') :: d).*1)) as [_|Hnin];
        [reflexivity|].
      destruct Hnin. apply list_elem_of_here.
    + change (((k', v') :: dict_set k v d).*1)
        with (k' :: (dict_set k v d).*1).
      rewrite IH.
      destruct (decide (k ∈ d.*1)) as [Hin|Hnin];
        destruct (decide (k ∈ ((k', v') :: d).*1)) as [Hin'|Hnin'];
        try reflexivity.
      * destruct Hnin'. by apply list_elem_of_further.
      * apply elem_of_cons in Hin' as [?|?]; contradiction.
Qed.

Lemma dict_get_set {V} (k k' : string) (v : V) (d : dict V) :
  dict_get k (dict_set k' v d) =
  if decide (k = k') then Some v else dict_get k d.
Proof.
  induction d as [|[k0 v0] d IH]; simpl.
  - destruct (decide (k' = k)), (decide (k = k')); simpl;
      try congruence; destruct (decide (k = k')); congruence.
  - destruct (decide (k' = k0)) as [->|Hne]; simpl.
    + destruct (decide (k = k0)); reflexivity.
    + destruct (decide (k = k0)) as [->|Hne'].
      * rewrite decide_False; [reflexivity|congruence].
      * exact IH.
Qed.

Lemma assign_all_keys (l : list (string * ToolResult)) d :
  dict_keys (assign_all l d) =
  dict_keys d ++ filter (fun k => k ∉ dict_keys d) (distinct l.*1).
Proof.
  revert d. induction l as [|[k v] l IH]; intros d.
  - simpl. by rewrite app_nil_r.
  - change (assign_all ((k, v) :: l) d) with (assign_all l (dict_set k v d)).
    rewrite IH, dict_keys_set. simpl. rewrite filter_cons.
    destruct (decide (k ∈ dict_keys d)) as [Hin|Hnin].
    + rewrite decide_False by tauto. f_equal.
      rewrite list_filter_filter. apply list_filter_iff.
      intros x. split; [|tauto]. intros Hx. split; [exact Hx|].
      intros ->. contradiction.
    + rewrite decide_True by exact Hnin.
      rewrite <- app_assoc. simpl. do 2 f_equal.
      rewrite list_filter_filter. apply list_filter_iff.
      intros x. rewrite elem_of_app, list_elem_of_singleton. tauto.
Qed.

Lemma assign_all_get (l : list (string * ToolResult)) d tool :
  dict_get tool (assign_all l d) =
  match last_result tool l with
  | Some r => Some r
  | None => dict_get tool d
  end.
Proof.
  revert d. induction l as [|[k v] l IH]; intros d; [reflexivity|].
  change (assign_all ((k, v) :: l) d) with (assign_all l (dict_set k v d)).
  rewrite IH. simpl. destruct (last_result tool l); [reflexivity|].
  rewrite dict_get_set. destruct (decide (tool = k)); reflexivity.
Qed.

Lemma elem_of_distinct (x : string) l : x ∈ distinct l <-> x ∈ l.
Proof.
  induction l as [|y l IH]; simpl; [reflexivity|].
  rewrite !elem_of_cons, list_elem_of_filter, IH.
  destruct (decide (x = y)); tauto.
Qed.

Lemma NoDup_distinct (l : list string) : NoDup (distinct l).
Proof.
  induction l as [|y l IH]; simpl; [constructor|].
  constructor.
  - rewrite list_elem_of_filter. tauto.
  - by apply NoDup_filter.
Qed.

Lemma distinct_length (l : list string) : length (distinct l) <= length l.
Proof.
  induction l as [|y l IH]; simpl; [lia|].
  pose proof (length_filter (fun x => x <> y) (distinct l)). lia.
Qed.

Lemma distinct_length_dup (l : list string) :
  ~ NoDup l -> length (distinct l) < length l.
Proof.
  induction l as [|y l IH]; intros H.
  - destruct H. constructor.
  - simpl. destruct (decide (y ∈ l)) as [Hin|Hnin].
    + assert (length (filter (fun x => x <> y) (distinct l))
              < length (distinct l)).
      { apply (length_filter_lt _ _ y); [by apply elem_of_distinct|tauto]. }
      pose proof (distinct_length l). lia.
    + assert (~ NoDup l) by (intros ?; apply H; by constructor).
      pose proof (length_filter (fun x => x <> y) (distinct l)).
      specialize (IH H0). lia.
Qed.

Lemma distinct_NoDup (l : list string) : NoDup l -> distinct l = l.
Proof.
  induction 1 as [|y l Hy _ IH]; simpl; [reflexivity|].
  rewrite IH. f_equal. clear IH. induction l as [|z l IH]; [reflexivity|].
  rewrite not_elem_of_cons in Hy. destruct Hy as [Hne Hy].
  rewrite filter_cons_True by congruence. f_equal. by apply IH.
Qed.

(** *** What a whole run starts *)

Lemma spawned_passive evs :
  forallb passive_event evs = true -> spawned evs = [].
Proof.
  intros H. apply spawned_none. rewrite forallb_forall in *.
  intros e He. specialize (H e He). destruct e; simpl in *; congruence.
Qed.

Lemma forallb_silent_passive evs :
  forallb silent_event evs = true -> forallb passive_event evs = true.
Proof.
  rewrite !forallb_forall. intros H e He. apply silent_passive, H, He.
Qed.

Lemma validation_cases args f :
  validation_fails args f = false ->
  target_missing args f = false /\ invalid_tool_given args = false /\
  ignore_path_missing args f = false.
Proof.
  unfold validation_fails. rewrite !orb_false_iff. tauto.
Qed.

Lemma commands_for_length args :
  invalid_tool_given args = false ->
  length (commands_for args) = length (tools args).
Proof.
  unfold invalid_tool_given, commands_for. rewrite negb_false_iff.
  induction (tools args) as [|tool rest IH]; [reflexivity|].
  simpl. rewrite andb_true_iff. intros [Ht Hrest].
  apply contains_supported in Ht.
  destruct (build_command_supported tool (target args) (ignore args)
              (output args) (offensive args) Ht) as [command E].
  rewrite E. simpl. f_equal. exact (IH Hrest).
Qed.

Lemma main_spawned args w :
  validation_fails args (fs w) = false ->
  spawned (trace (main args w).2) = spawned (trace w) ++ commands_for args.
Proof.
  intros V. rewrite <- after_tools_spawned.
  destruct (truthy_str (output args)) eqn:T.
  - destruct (can_open_w (fs (after_tools args w)) (the_str (output args)))
      eqn:C.
    + destruct (main_file_ok args w V T C) as (evs & E & P).
      rewrite E. simpl. rewrite spawned_app. simpl.
      rewrite (spawned_passive evs), app_nil_r; [reflexivity|].
      by apply forallb_silent_passive.
    + destruct (main_file_unwritable args w V T C) as (msg & E).
      rewrite E. simpl. rewrite spawned_app. simpl. by rewrite app_nil_r.
  - destruct (main_stdout args w V T) as (evs & E & _ & P).
    rewrite E. simpl. rewrite spawned_app, (spawned_passive evs P).
    by rewrite app_nil_r.
Qed.

(** *** The claims about [run_tool] *)

(** C1 (amended): for a tool identifier outside the supported set
    [run_tool] starts no process and changes no file; the [ValueError] it
    raises is caught by its own handler, so the caller gets the failure
    result [(1, "", "Unsupported tool: <tool>")] instead of an exception. *)
Theorem unsupported_tool_is_reported tool target ignore output offensive w :
  tool ∉ supported_tools ->
  (run_tool tool target ignore output offensive w).1 =
    Ok (1%Z, EmptyString, "Unsupported tool: " +:+ tool) /\
  spawned (trace (run_tool tool target ignore output offensive w).2) =
    spawned (trace w) /\
  fs (run_tool tool target ignore output offensive w).2 = fs w.
Proof.
  intros H.
  rewrite (run_tool_unsupported _ _ _ _ _ _
             (build_command_unsupported _ target ignore output offensive H)).
  simpl. rewrite spawned_app. simpl. by rewrite app_nil_r.
Qed.

(** C3 (amended): when the launch of a supported tool raises (the
    executable is missing, or any other fault), [run_tool] raises nothing
    to its caller and returns exit code 1, an empty stdout and, as stderr,
    the description [str(e)] of the exception exactly as it is: empty when
    that description is empty.  A run whose validation passed still starts
    every requested tool, whatever fails. *)
Theorem launch_failure_is_contained args w tool command c msg f' w0 :
  validation_fails args (fs w) = false ->
  build_command tool (target args) (ignore args) (output args)
                (offensive args) = Some command ->
  popen_oracle command (fs w0) = (LaunchFailed c msg, f') ->
  (run_tool tool (target args) (ignore args) (output args) (offensive args)
            w0).1 = Ok (1%Z, EmptyString, msg) /\
  spawned (trace (main args w).2) = spawned (trace w) ++ commands_for args /\
  length (commands_for args) = length (tools args).
Proof.
  intros V B L.
  rewrite (run_tool_supported _ _ _ _ _ _ _ B), L. simpl.
  split; [reflexivity|]. split.
  - by apply main_spawned.
  - apply commands_for_length. by apply (validation_cases _ _ V).
Qed.

(** *** Adjacent tokens *)

Lemma adjacent_cons2 a b x y l :
  adjacent a b (x :: y :: l) =
  (bool_decide (x = a) && bool_decide (y = b)) || adjacent a b (y :: l).
Proof. reflexivity. Qed.

Lemma adjacent_intro a b l1 l2 : adjacent a b (l1 ++ a :: b :: l2) = true.
Proof.
  induction l1 as [|x l1 IH].
  - simpl. rewrite !bool_decide_eq_true_2 by reflexivity. reflexivity.
  - destruct l1 as [|y l1]; simpl in *; rewrite IH; apply orb_true_r.
Qed.

Lemma adjacent_app a b l1 l2 :
  adjacent a b (l1 ++ l2) =
  adjacent a b l1 ||
  (bool_decide (last l1 = Some a) && bool_decide (head l2 = Some b)) ||
  adjacent a b l2.
Proof.
  induction l1 as [|x l1 IH].
  - reflexivity.
  - destruct l1 as [|y l1].
    + destruct l2 as [|z l2]; simpl.
      * rewrite andb_false_r. reflexivity.
      * rewrite (bool_decide_ext (Some x = Some a) (x = a))
          by (split; congruence).
        rewrite (bool_decide_ext (Some z = Some b) (z = b))
          by (split; congruence).
        reflexivity.
    + change ((x :: y :: l1) ++ l2) with (x :: y :: (l1 ++ l2)).
      rewrite !adjacent_cons2.
      change (y :: l1 ++ l2) with ((y :: l1) ++ l2). rewrite IH.
      change (last (x :: y :: l1)) with (last (y :: l1)).
      rewrite !orb_assoc. reflexivity.
Qed.

Lemma last_exclusions (l : list string) :
  last (concat (map (fun i => ["-x"; i]) l)) = last l.
Proof.
  induction l as [|i l IH]; [reflexivity|].
  destruct l as [|j l]; [reflexivity|].
  simpl in *. exact IH.
Qed.

Lemma head_exclusions (l : list string) :
  head (concat (map (fun i => ["-x"; i]) l)) =
  match l with [] => None | _ => Some "-x" end.
Proof. destruct l; reflexivity. Qed.

(** In the run of ["-x"; path] pairs, a token of a pair of which the
    first is not ["-x"] and the second is not ["-x"] never shows up. *)
Lemma adjacent_exclusions a b (l : list string) :
  a <> "-x" -> b <> "-x" ->
  adjacent a b (concat (map (fun i => ["-x"; i]) l)) = false.
Proof.
  intros Ha Hb. induction l as [|i l IH]; [reflexivity|].
  change (concat (map (fun i => ["-x"; i]) (i :: l)))
    with ("-x" :: i :: concat (map (fun i => ["-x"; i]) l)).
  rewrite adjacent_cons2.
  rewrite (bool_decide_eq_false_2 ("-x" = a)) by congruence. simpl.
  destruct l as [|j l]; [reflexivity|].
  change (concat (map (fun i => ["-x"; i]) (j :: l)))
    with ("-x" :: j :: concat (map (fun i => ["-x"; i]) l)) in *.
  rewrite adjacent_cons2.
  rewrite (bool_decide_eq_false_2 ("-x" = b)) by congruence.
  rewrite andb_false_r. exact IH.
Qed.

Lemma exclusions_adjacent (l : list string) i :
  i ∈ l -> adjacent "-x" i (concat (map (fun i => ["-x"; i]) l)) = true.
Proof.
  intros H. apply list_elem_of_split in H as (l1 & l2 & ->).
  rewrite map_app, concat_app. simpl.
  apply adjacent_intro.
Qed.

Lemma run_tool_spawned tool target ignore output offensive command w :
  build_command tool target ignore output offensive = Some command ->
  spawned (trace (run_tool tool target ignore output offensive w).2) =
  spawned (trace w) ++ [command].
Proof.
  intros B. rewrite (run_tool_supported _ _ _ _ _ _ _ B).
  destruct (popen_oracle command (fs w)) as [[rc out err|c msg] f'];
    simpl; rewrite spawned_app; reflexivity.
Qed.

Ltac token_in :=
  repeat first [apply list_elem_of_here | apply list_elem_of_further].

Ltac flag_in :=
  let Hf := fresh "Hf" in
  intros Hf;
  repeat (apply elem_of_cons in Hf as [-> | Hf]; [token_in|]);
  by apply elem_of_nil in Hf.

(** C4: for a supported tool, the command line [run_tool] hands to
    [subprocess.Popen] holds the target path as a token of its own and
    the fixed base flags of the tool: ["-r"] and ["-q"] for bandit,
    nothing beyond the executable for flake8, ["--disable=all"],
    ["--enable=security"] and ["--reports=n"] for pylint. *)
Theorem command_has_target_and_base_flags
    tool target ignore output offensive w :
  tool ∈ supported_tools ->
  exists command,
    build_command tool target ignore output offensive = Some command /\
    spawned (trace (run_tool tool target ignore output offensive w).2) =
      spawned (trace w) ++ [command] /\
    head command = Some tool /\
    target ∈ command /\
    (forall flag, flag ∈ base_flags tool -> flag ∈ command) /\
    (tool = "bandit" ->
     exists rest, command = ["bandit"; "-r"; target; "-q"] ++ rest) /\
    (tool = "flake8" -> exists rest, command = ["flake8"; target] ++ rest) /\
    (tool = "pylint" ->
     exists rest,
       command =
       ["pylint"; target; "--disable=all"; "--enable=security";
        "--reports=n"] ++ rest).
Proof.
  intros H.
  destruct (supported_cases _ H) as [-> | [-> | ->]].
  - exists (bandit_command target ignore output offensive).
    split; [reflexivity|]. split; [by apply run_tool_spawned|].
    rewrite bandit_command_shape. split; [reflexivity|].
    split; [token_in|]. split; [|split; [|split]].
    + intros flag. change (base_flags "bandit") with ["-r"; "-q"].
      flag_in.
    + intros _. eexists. reflexivity.
    + discriminate.
    + discriminate.
  - exists (flake8_command target ignore output).
    split; [reflexivity|]. split; [by apply run_tool_spawned|].
    rewrite flake8_command_shape. split; [reflexivity|].
    split; [token_in|]. split; [|split; [|split]].
    + intros flag. change (base_flags "flake8") with (@nil string).
      flag_in.
    + discriminate.
    + intros _. eexists. reflexivity.
    + discriminate.
  - exists (pylint_command target ignore output).
    split; [reflexivity|]. split; [by apply run_tool_spawned|].
    rewrite pylint_command_shape. split; [reflexivity|].
    split; [token_in|]. split; [|split; [|split]].
    + intros flag.
      change (base_flags "pylint")
        with ["--disable=all"; "--enable=security"; "--reports=n"].
      flag_in.
    + discriminate.
    + discriminate.
    + intros _. eexists. reflexivity.
Qed.

(** C5: with a non-empty ignore list the bandit command line holds, after
    its base part, one ["-x"] flag followed by the path for each ignore
    path, in order, and nothing else before the output part; the flake8
    and pylint command lines hold one ["--exclude"] (resp. ["--ignore"])
    flag followed by one token, the paths joined by commas. *)
Theorem exclusion_tokens target (paths : list string) output offensive :
  paths <> [] ->
  build_command "bandit" target (Some paths) output offensive =
    Some ((["bandit"; "-r"; target; "-q"] ++
           (if offensive then ["-s"; offensive_rules] else [])) ++
          concat (map (fun i => ["-x"; i]) paths) ++
          (if truthy_str output
           then ["-o"; the_str output; "-f"; "txt"] else [])) /\
  length (concat (map (fun i => ["-x"; i]) paths)) = 2 * length paths /\
  (forall i, i ∈ paths ->
     adjacent "-x" i (concat (map (fun i => ["-x"; i]) paths)) = true) /\
  build_command "flake8" target (Some paths) output offensive =
    Some (["flake8"; target] ++
          ["--exclude"; join "," paths] ++
          (if truthy_str output
           then ["--output-file"; the_str output] else [])) /\
  build_command "pylint" target (Some paths) output offensive =
    Some (["pylint"; target; "--disable=all"; "--enable=security";
           "--reports=n"] ++
          ["--ignore"; join "," paths] ++
          (if truthy_str output then ["--output"; the_str output] else [])).
Proof.
  intros Hne. destruct paths as [|p paths]; [congruence|].
  split; [|split; [|split; [|split]]].
  - change (build_command "bandit" target (Some (p :: paths)) output
              offensive)
      with (Some (bandit_command target (Some (p :: paths)) output
                    offensive)).
    rewrite bandit_command_shape, <- app_assoc. reflexivity.
  - generalize (p :: paths). intros l.
    induction l as [|i l IH]; simpl in *; lia.
  - intros i. apply exclusions_adjacent.
  - change (build_command "flake8" target (Some (p :: paths)) output
              offensive)
      with (Some (flake8_command target (Some (p :: paths)) output)).
    rewrite flake8_command_shape. reflexivity.
  - change (build_command "pylint" target (Some (p :: paths)) output
              offensive)
      with (Some (pylint_command target (Some (p :: paths)) output)).
    rewrite pylint_command_shape. reflexivity.
Qed.

Lemma bandit_no_rules target ignore output :
  adjacent "-s" offensive_rules (bandit_command target ignore output false)
  = false.
Proof.
  rewrite bandit_command_shape.
  set (pre := ["bandit"; "-r"; target; "-q"]).
  set (excl := concat (map (fun i => ["-x"; i]) (the_list ignore))).
  set (post := if truthy_str output
               then ["-o"; the_str output; "-f"; "txt"] else []).
  change (pre ++ [] ++ excl ++ post) with (pre ++ excl ++ post).
  rewrite (adjacent_app _ _ pre (excl ++ post)).
  rewrite (adjacent_app _ _ excl post).
  assert (P : adjacent "-s" offensive_rules pre = false).
  { unfold pre. simpl. rewrite andb_false_r. reflexivity. }
  assert (J1 : bool_decide (last pre = Some "-s") = false) by reflexivity.
  assert (E : adjacent "-s" offensive_rules excl = false).
  { apply adjacent_exclusions; discriminate. }
  assert (J2 : bool_decide (head post = Some offensive_rules) = false).
  { unfold post. destruct (truthy_str output); reflexivity. }
  assert (Q : adjacent "-s" offensive_rules post = false).
  { unfold post. destruct (truthy_str output); [|reflexivity].
    simpl. rewrite andb_false_r. reflexivity. }
  rewrite P, J1, E, J2, Q, andb_false_r. reflexivity.
Qed.

(** C6: the bandit command line holds ["-s"] followed by the rule list
    exactly when the offensive flag is set, right after the base part; the
    flag changes nothing in the flake8 and pylint command lines. *)
Theorem offensive_rules_only_for_bandit target ignore output offensive :
  (adjacent "-s" offensive_rules
     (bandit_command target ignore output offensive) = true <->
   offensive = true) /\
  build_command "bandit" target ignore output offensive =
    Some (["bandit"; "-r"; target; "-q"] ++
          (if offensive then ["-s"; offensive_rules] else []) ++
          concat (map (fun i => ["-x"; i]) (the_list ignore)) ++
          (if truthy_str output
           then ["-o"; the_str output; "-f"; "txt"] else [])) /\
  build_command "flake8" target ignore output offensive =
    build_command "flake8" target ignore output false /\
  build_command "pylint" target ignore output offensive =
    build_command "pylint" target ignore output false.
Proof.
  split; [|split; [|split]].
  - destruct offensive.
    + split; [reflexivity|intros _].
      rewrite bandit_command_shape.
      apply (adjacent_intro "-s" offensive_rules
               ["bandit"; "-r"; target; "-q"]).
    + rewrite bandit_no_rules. split; discriminate.
  - change (build_command "bandit" target ignore output offensive)
      with (Some (bandit_command target ignore output offensive)).
    by rewrite bandit_command_shape.
  - reflexivity.
  - reflexivity.
Qed.

(** *** Events a phase cannot produce *)

Lemma forallb_impl (p q : Event -> bool) evs :
  (forall e, p e = true -> q e = true) ->
  forallb p evs = true -> forallb q evs = true.
Proof. rewrite !forallb_forall. auto. Qed.

Lemma probed_none evs :
  forallb (fun e => negb (is_probe e)) evs = true -> probed evs = [].
Proof.
  induction evs as [|e evs IH]; [reflexivity|].
  destruct e; simpl; try discriminate; exact IH.
Qed.

Lemma opened_none evs :
  forallb (fun e => negb (is_open e)) evs = true -> opened evs = [].
Proof.
  induction evs as [|e evs IH]; [reflexivity|].
  destruct e; simpl; try discriminate; exact IH.
Qed.

Lemma printed_none evs :
  forallb (fun e => negb (is_print e)) evs = true ->
  printed evs = EmptyString.
Proof.
  induction evs as [|e evs IH]; [reflexivity|].
  destruct e; simpl; try discriminate; exact IH.
Qed.

Ltac by_event_cases :=
  let e := fresh "e" in
  intros e; destruct e;
  unfold execution_event, validation_event, passive_event, silent_event,
    is_log, is_spawn, is_probe, is_open, is_print;
  simpl; congruence.

Lemma after_validation_quiet args w :
  spawned (trace (after_validation args w)) = spawned (trace w) /\
  opened (trace (after_validation args w)) = opened (trace w) /\
  printed (trace (after_validation args w)) = printed (trace w).
Proof.
  destruct (after_validation_spec args w) as (pre & E & P). rewrite E. simpl.
  rewrite spawned_app, opened_app, printed_app.
  rewrite (spawned_none pre), (opened_none pre), (printed_none pre).
  - by rewrite !app_nil_r, string_app_nil_r.
  - revert P. apply forallb_impl. by_event_cases.
  - revert P. apply forallb_impl. by_event_cases.
  - revert P. apply forallb_impl. by_event_cases.
Qed.

Lemma after_tools_quiet args w :
  opened (trace (after_tools args w)) = opened (trace w) /\
  printed (trace (after_tools args w)) = printed (trace w) /\
  probed (trace (after_tools args w)) =
    probed (trace (after_validation args w)).
Proof.
  destruct (after_tools_trace args w) as (evs & E & P).
  destruct (after_validation_quiet args w) as (_ & O & Pr).
  rewrite E, opened_app, printed_app, probed_app, O, Pr.
  rewrite (opened_none evs), (printed_none evs), (probed_none evs).
  - by rewrite !app_nil_r, string_app_nil_r.
  - revert P. apply forallb_impl. by_event_cases.
  - revert P. apply forallb_impl. by_event_cases.
  - revert P. apply forallb_impl. by_event_cases.
Qed.

(** After the loop [main] only reports: it opens at most the output file,
    writes, prints and logs. *)
Lemma main_tail args w :
  validation_fails args (fs w) = false ->
  exists tail,
    trace (main args w).2 = trace (after_tools args w) ++ tail /\
    forallb execution_event tail = true /\
    spawned tail = [].
Proof.
  intros V. destruct (truthy_str (output args)) eqn:T.
  - destruct (can_open_w (fs (after_tools args w)) (the_str (output args)))
      eqn:C.
    + destruct (main_file_ok args w V T C) as (evs & E & P).
      rewrite E. simpl. eexists. split; [reflexivity|]. split.
      * simpl. revert P. apply forallb_impl. by_event_cases.
      * simpl. apply spawned_passive. by apply forallb_silent_passive.
    + destruct (main_file_unwritable args w V T C) as (msg & E).
      rewrite E. simpl. eexists. split; [reflexivity|]. split; reflexivity.
  - destruct (main_stdout args w V T) as (evs & E & _ & P).
    rewrite E. simpl. eexists. split; [reflexivity|]. split.
    + revert P. apply forallb_impl. by_event_cases.
    + by apply spawned_passive.
Qed.

Lemma run_program_fst args w :
  (run_program args w).1 = exit_status (main args w).1.
Proof. unfold run_program. destruct (main args w). reflexivity. Qed.

Lemma run_program_snd args w : (run_program args w).2 = (main args w).2.
Proof. unfold run_program. destruct (main args w). reflexivity. Qed.

(** *** The claims about [main] *)

(** C2: the trace of every run splits into a validation part, made of
    existence tests and log records only, followed by an execution part
    with no existence test; every process is started in the second part.
    When a check fails (target missing, unsupported tool requested, ignore
    path missing) the second part is empty: the process exits with status
    1, no process has been started and the file system is untouched. *)
Theorem validation_precedes_execution args w :
  (exists pre post,
     trace (main args w).2 = trace w ++ pre ++ post /\
     forallb validation_event pre = true /\ spawned pre = [] /\
     forallb execution_event post = true /\ probed post = [] /\
     (validation_fails args (fs w) = true -> post = [])) /\
  (validation_fails args (fs w) = true ->
   (run_program args w).1 = 1%Z /\
   spawned (trace (run_program args w).2) = spawned (trace w) /\
   fs (run_program args w).2 = fs w).
Proof.
  destruct (after_validation_spec args w) as (pre & E & P).
  assert (Sp : spawned pre = []).
  { apply spawned_none. revert P. apply forallb_impl. by_event_cases. }
  split.
  - exists pre. destruct (validation_fails args (fs w)) eqn:V.
    + exists []. rewrite (main_invalid _ _ V), E. simpl.
      rewrite app_nil_r. repeat split; auto.
    + destruct (main_tail args w V) as (tail & Et & Pt & _).
      destruct (after_tools_trace args w) as (evs & El & Pl).
      exists (evs ++ tail). rewrite Et, El, E. simpl.
      rewrite <- !app_assoc. split; [reflexivity|].
      assert (Pe : forallb execution_event (evs ++ tail) = true).
      { rewrite forallb_app, Pt, andb_true_r.
        revert Pl. apply forallb_impl. by_event_cases. }
      repeat split; auto; [|discriminate].
      by apply probed_none.
  - intros V. rewrite run_program_fst, run_program_snd.
    rewrite (main_invalid _ _ V), E. simpl. rewrite spawned_app, Sp.
    by rewrite app_nil_r.
Qed.

Lemma main_outcome args w :
  (main args w).1 =
  if validation_fails args (fs w) ||
     output_unwritable args (fs (after_tools args w))
  then Raised (SystemExit 1) else Ok tt.
Proof.
  destruct (validation_fails args (fs w)) eqn:V.
  - by rewrite (main_invalid _ _ V).
  - unfold output_unwritable. simpl.
    destruct (truthy_str (output args)) eqn:T.
    + destruct (can_open_w (fs (after_tools args w)) (the_str (output args)))
        eqn:C.
      * destruct (main_file_ok args w V T C) as (evs & E & _).
        by rewrite E.
      * destruct (main_file_unwritable args w V T C) as (msg & E).
        by rewrite E.
    + destruct (main_stdout args w V T) as (evs & E & _). by rewrite E.
Qed.

(** C7: the exit status is 1 exactly when the target is missing, a
    requested tool is not supported, an ignore path is missing, or the
    output file cannot be opened for writing once the tools have run; in
    every other case [main] returns and the status is 0, whatever exit
    codes the child processes gave. *)
Theorem exit_code_spec args w :
  ((run_program args w).1 = 1%Z <->
   target_missing args (fs w) = true \/
   invalid_tool_given args = true \/
   ignore_path_missing args (fs w) = true \/
   output_unwritable args (fs (after_tools args w)) = true) /\
  ((run_program args w).1 = 0%Z <->
   target_missing args (fs w) = false /\
   invalid_tool_given args = false /\
   ignore_path_missing args (fs w) = false /\
   output_unwritable args (fs (after_tools args w)) = false) /\
  ((run_program args w).1 = 0%Z <-> (main args w).1 = Ok tt).
Proof.
  rewrite run_program_fst, main_outcome. unfold validation_fails.
  destruct (target_missing args (fs w)),
           (invalid_tool_given args),
           (ignore_path_missing args (fs w)),
           (output_unwritable args (fs (after_tools args w)));
    simpl; intuition congruence.
Qed.

Lemma result_set_keys args w :
  dict_keys (result_set args w) = distinct (tools args).
Proof.
  unfold result_set. rewrite assign_all_keys. simpl.
  unfold run_executions. rewrite executions_tools.
  induction (distinct (tools args)) as [|x l IH]; [reflexivity|].
  rewrite filter_cons_True by apply not_elem_of_nil. by rewrite IH.
Qed.

Lemma read_with_report f path text :
  read_file (with_report f path text) path = Some text.
Proof.
  unfold read_file, with_report. simpl. by rewrite lookup_insert_eq.
Qed.

(** C8: a run that completes reports the entries of the result set in
    order, one block each; the entries are the requested tools in the
    order of the request (of their first request, when one is requested
    twice).  A block is the tool name, the return code, stdout and stderr
    on the lines the source prints, closed by a line of forty ['-'].  With
    an output path the file holds exactly these blocks and nothing is
    printed; without one the blocks are printed and no file is opened. *)
Theorem report_is_one_block_per_entry args w :
  validation_fails args (fs w) = false ->
  output_unwritable args (fs (after_tools args w)) = false ->
  (main args w).1 = Ok tt /\
  run_tools args (tools args) [] (after_validation args w) =
    (Ok (result_set args w), after_tools args w) /\
  dict_keys (result_set args w) = distinct (tools args) /\
  (NoDup (tools args) -> dict_keys (result_set args w) = tools args) /\
  (forall tool r rest,
     report_text ((tool, r) :: rest) =
     ("Results for " +:+ tool +:+ ":" +:+ nl +:+
      "Return Code: " +:+ str_int (return_code r) +:+ nl +:+
      "Stdout:" +:+ nl +:+ stdout r +:+ nl +:+
      "Stderr:" +:+ nl +:+ stderr r +:+ nl +:+
      "----------------------------------------" +:+ nl) +:+
     report_text rest) /\
  report_text [] = EmptyString /\
  (truthy_str (output args) = true ->
   read_file (fs (main args w).2) (the_str (output args)) =
     Some (report_text (dict_items (result_set args w))) /\
   printed (trace (main args w).2) = printed (trace w)) /\
  (truthy_str (output args) = false ->
   printed (trace (main args w).2) =
     printed (trace w) +:+ report_text (dict_items (result_set args w)) /\
   opened (trace (main args w).2) = opened (trace w) /\
   fs (main args w).2 = fs (after_tools args w)).
Proof.
  intros V U.
  destruct (after_tools_quiet args w) as (O & Pr & _).
  split; [by rewrite main_outcome, V, U|].
  split; [apply loop_spec|].
  split; [apply result_set_keys|].
  split; [intros N; by rewrite result_set_keys, distinct_NoDup|].
  split.
  { intros tool r rest. simpl. unfold report_block.
    rewrite !string_app_assoc. reflexivity. }
  split; [reflexivity|].
  split.
  - intros T. unfold output_unwritable in U. rewrite T in U. simpl in U.
    apply negb_false_iff in U.
    destruct (main_file_ok args w V T U) as (evs & E & P).
    rewrite E. simpl. split; [apply read_with_report|].
    rewrite printed_app, Pr. simpl.
    rewrite (printed_silent evs P). apply string_app_nil_r.
  - intros T. destruct (main_stdout args w V T) as (evs & E & Pe & P).
    rewrite E. simpl. rewrite printed_app, opened_app, Pr, O, Pe.
    split; [reflexivity|]. split; [|reflexivity].
    rewrite (opened_none evs); [by rewrite app_nil_r|].
    revert P. apply forallb_impl. by_event_cases.
Qed.

(** C9: every occurrence of a tool in the request is executed, and starts
    its process, once; the result set has one entry per distinct requested
    identifier, which holds the result of its last execution.  So the size
    of the result set is the number of distinct identifiers, and is below
    the length of the request as soon as an identifier is repeated. *)
Theorem duplicates_collapse args w :
  validation_fails args (fs w) = false ->
  (run_executions args w).1.*1 = tools args /\
  spawned (trace (after_tools args w)) =
    spawned (trace w) ++ commands_for args /\
  length (commands_for args) = length (tools args) /\
  run_tools args (tools args) [] (after_validation args w) =
    (Ok (result_set args w), after_tools args w) /\
  dict_keys (result_set args w) = distinct (tools args) /\
  NoDup (dict_keys (result_set args w)) /\
  (forall tool,
     dict_get tool (result_set args w) =
     last_result tool (run_executions args w).1) /\
  length (result_set args w) = length (distinct (tools args)) /\
  (~ NoDup (tools args) ->
   length (result_set args w) < length (tools args)).
Proof.
  intros V.
  assert (L : length (result_set args w) = length (distinct (tools args))).
  { rewrite <- (result_set_keys args w). unfold dict_keys.
    by rewrite length_fmap. }
  split; [unfold run_executions; apply executions_tools|].
  split; [apply after_tools_spawned|].
  split; [apply commands_for_length; by apply (validation_cases _ _ V)|].
  split; [apply loop_spec|].
  split; [apply result_set_keys|].
  split; [rewrite result_set_keys; apply NoDup_distinct|].
  split.
  { intros tool. unfold result_set. rewrite assign_all_get.
    destruct (last_result tool _); reflexivity. }
  split; [exact L|].
  intros N. rewrite L. by apply distinct_length_dup.
Qed.

Lemma output_flag_adjacent tool target ignore output offensive command :
  truthy_str output = true ->
  build_command tool target ignore output offensive = Some command ->
  adjacent (output_flag tool) (the_str output) command = true.
Proof.
  intros T. unfold build_command, output_flag.
  destruct (decide (tool = "bandit")) as [->|N1].
  { intros [= <-]. rewrite bandit_command_shape, T.
    rewrite !app_assoc. apply adjacent_intro. }
  destruct (decide (tool = "flake8")) as [->|N2].
  { intros [= <-]. rewrite flake8_command_shape, T.
    rewrite !app_assoc. apply adjacent_intro. }
  destruct (decide (tool = "pylint")) as [->|N3]; [|discriminate].
  intros [= <-]. rewrite pylint_command_shape, T.
  rewrite !app_assoc. apply adjacent_intro.
Qed.

(** C10: with an output path, every tool of the request is started with
    that path right after its own report flag; the program opens the same
    path for writing once, after the last process has been started; and
    when it is done the file holds the aggregate report and nothing else,
    whatever the processes did to the file system. *)
Theorem report_replaces_native_output args w :
  validation_fails args (fs w) = false ->
  truthy_str (output args) = true ->
  can_open_w (fs (after_tools args w)) (the_str (output args)) = true ->
  (forall tool, tool ∈ tools args ->
     exists command,
       build_command tool (target args) (ignore args) (output args)
                     (offensive args) = Some command /\
       command ∈ spawned (trace (after_tools args w)) /\
       adjacent (output_flag tool) (the_str (output args)) command = true) /\
  opened (trace (after_tools args w)) = opened (trace w) /\
  (exists evs,
     trace (main args w).2 =
       trace (after_tools args w) ++ EvOpen (the_str (output args)) :: evs /\
     spawned evs = [] /\ opened evs = []) /\
  read_file (fs (main args w).2) (the_str (output args)) =
    Some (report_text (dict_items (result_set args w))).
Proof.
  intros V T C.
  destruct (main_file_ok args w V T C) as (evs & E & P).
  split; [|split; [|split]].
  - intros tool Hin.
    destruct (validation_cases _ _ V) as (_ & Hv & _).
    unfold invalid_tool_given in Hv. apply negb_false_iff in Hv.
    rewrite forallb_forall in Hv.
    assert (Hs : tool ∈ supported_tools).
    { apply contains_supported, Hv. by apply list_elem_of_In. }
    destruct (build_command_supported tool (target args) (ignore args)
                (output args) (offensive args) Hs) as [command B].
    exists command. split; [exact B|]. split.
    + rewrite after_tools_spawned, elem_of_app. right.
      unfold commands_for. rewrite list_elem_of_omap. eauto.
    + by apply (output_flag_adjacent _ _ _ _ _ _ T B).
  - by destruct (after_tools_quiet args w) as (O & _).
  - exists evs. rewrite E. simpl. split; [reflexivity|]. split.
    + apply spawned_passive. by apply forallb_silent_passive.
    + apply opened_none. revert P. apply forallb_impl. by_event_cases.
  - rewrite E. simpl. apply read_with_report.
Qed.

(** ** Further properties of the code *)

(** *** [run_tool] *)

(** X1: when the child process runs to completion, [run_tool] hands back
    its exit code unchanged and its two output streams decoded, leaves the
    file system as the process left it, and its only visible effects are
    the INFO record of the space-joined command line followed by the launch
    (the two DEBUG records fall below the configured level). *)
Theorem run_tool_passes_result_through
    tool target ignore output offensive command rc out err f' w :
  build_command tool target ignore output offensive = Some command ->
  popen_oracle command (fs w) = (Completed rc out err, f') ->
  run_tool tool target ignore output offensive w =
  (Ok (rc, decode_utf8_ignore out, decode_utf8_ignore err),
   mkWorld f'
     (trace w ++
      [EvLog INFO ("Running: " +:+ join " " command); EvSpawn command])).
Proof.
  intros B L. rewrite (run_tool_supported _ _ _ _ _ _ _ B), L. reflexivity.
Qed.

(** X2: a launch that raises is logged at ERROR level after the launch
    attempt: with the "not found ... PATH" message naming the tool when the
    exception is [FileNotFoundError], and with the "unexpected error"
    message carrying the description for every other exception class. *)
Theorem launch_failure_is_logged
    tool target ignore output offensive command c msg f' w :
  build_command tool target ignore output offensive = Some command ->
  popen_oracle command (fs w) = (LaunchFailed c msg, f') ->
  trace (run_tool tool target ignore output offensive w).2 =
  trace w ++
  [EvLog INFO ("Running: " +:+ join " " command); EvSpawn command;
   EvLog ERROR
     match c with
     | FileNotFoundError =>
         "Error: " +:+ tool +:+
         " not found. Please ensure it is installed and in your PATH."
     | _ =>
         "An unexpected error occurred while running " +:+ tool +:+
         ": " +:+ msg
     end] /\
  fs (run_tool tool target ignore output offensive w).2 = f'.
Proof.
  intros B L. rewrite (run_tool_supported _ _ _ _ _ _ _ B), L. simpl.
  destruct c; split; reflexivity.
Qed.

(** X3: [run_tool] never lets an exception out, whatever the tool name,
    the arguments and the behaviour of the child process; it attempts at
    most one launch (exactly the command line of the tool, none for a tool
    without one), tests no path, opens no file and prints nothing. *)
Theorem run_tool_never_raises tool target ignore output offensive w :
  exists rc out err w',
    run_tool tool target ignore output offensive w = (Ok (rc, out, err), w') /\
    spawned (trace w') =
      spawned (trace w) ++
      option_list (build_command tool target ignore output offensive) /\
    probed (trace w') = probed (trace w) /\
    opened (trace w') = opened (trace w) /\
    printed (trace w') = printed (trace w).
Proof.
  destruct (build_command tool target ignore output offensive) as [command|]
    eqn:B.
  - rewrite (run_tool_supported _ _ _ _ _ _ _ B).
    destruct (popen_oracle command (fs w)) as [[rc out err|c msg] f'];
      do 4 eexists; (split; [reflexivity|]); simpl;
      rewrite spawned_app, probed_app, opened_app, printed_app; simpl;
      rewrite !app_nil_r, string_app_nil_r; auto.
  - rewrite (run_tool_unsupported _ _ _ _ _ _ B).
    do 4 eexists. split; [reflexivity|]. simpl.
    rewrite spawned_app, probed_app, opened_app, printed_app. simpl.
    rewrite !app_nil_r, string_app_nil_r. auto.
Qed.

(** *** The validators *)

Lemma repr_valid_tools : repr_list valid_tools = "['bandit', 'flake8', 'pylint']".
Proof. reflexivity. Qed.

Lemma validate_tools_eq requested w :
  validate_tools requested w =
  match first_invalid requested with
  | None => (Ok true, w)
  | Some tool =>
      (Ok false, mkWorld (fs w) (trace w ++ [invalid_tool_log tool]))
  end.
Proof.
  unfold first_invalid.
  induction requested as [|tool rest IH]; [reflexivity|].
  simpl. destruct (contains tool valid_tools); simpl; [exact IH|].
  unfold invalid_tool_log. rewrite <- repr_valid_tools. reflexivity.
Qed.

Lemma logged_app t1 t2 : logged (t1 ++ t2) = logged t1 ++ logged t2.
Proof.
  induction t1 as [|e t1 IH]; [reflexivity|].
  destruct e; simpl; rewrite ?IH; reflexivity.
Qed.

(** X4: [validate_tools] accepts exactly the requests made of supported
    tools, silently; otherwise it logs one error, which names the first
    unsupported tool of the request and lists the valid ones, and stops
    there.  It never touches the file system. *)
Theorem validate_tools_reports_first_invalid requested w :
  validate_tools requested w =
  match first_invalid requested with
  | None => (Ok true, w)
  | Some tool =>
      (Ok false,
       mkWorld (fs w)
         (trace w ++
          [EvLog ERROR
             ("Error: Invalid tool '" +:+ tool +:+
              "'. Valid tools are: ['bandit', 'flake8', 'pylint']")]))
  end /\
  (first_invalid requested = None <->
   forall tool, tool ∈ requested -> tool ∈ supported_tools).
Proof.
  split; [apply validate_tools_eq|]. unfold first_invalid.
  induction requested as [|tool rest IH]; simpl.
  - split; [|reflexivity]. intros _ tool H. by apply elem_of_nil in H.
  - destruct (contains tool valid_tools) eqn:E; simpl.
    + rewrite IH. apply contains_supported in E. split.
      * intros H t Ht. apply elem_of_cons in Ht as [->|Ht]; auto.
      * intros H t Ht. apply H. by apply list_elem_of_further.
    + split; [discriminate|]. intros H.
      assert (contains tool valid_tools = true) as E'.
      { apply contains_supported, H, list_elem_of_here. }
      congruence.
Qed.

(** X5: [validate_ignore_paths] accepts [None] without any effect.  On a
    list it tests the paths in order and stops at the first missing one:
    the paths after it are never tested.  It answers whether all paths
    exist, logs one error naming the first missing path and nothing else,
    and leaves the file system alone. *)
Theorem validate_ignore_paths_short_circuits paths w :
  validate_ignore_paths None w = (Ok true, w) /\
  (validate_ignore_paths (Some paths) w).1 =
    Ok (forallb (path_exists (fs w)) paths) /\
  fs (validate_ignore_paths (Some paths) w).2 = fs w /\
  probed (trace (validate_ignore_paths (Some paths) w).2) =
    probed (trace w) ++ probes_until_missing (fs w) paths /\
  logged (trace (validate_ignore_paths (Some paths) w).2) =
    logged (trace w) ++
    match first_missing (fs w) paths with
    | None => []
    | Some path =>
        [(ERROR, "Error: Ignore path '" +:+ path +:+ "' does not exist.")]
    end.
Proof.
  split; [reflexivity|]. simpl. unfold first_missing.
  revert w. induction paths as [|path rest IH]; intros w.
  - simpl. rewrite !app_nil_r. auto.
  - simpl. unfold os_path_exists, bind, path_exists at 1 4 5. simpl.
    fold (path_exists (fs w) path).
    destruct (path_exists (fs w) path) eqn:E; simpl.
    + destruct (IH (mkWorld (fs w) (trace w ++ [EvExists path])))
        as (R & F & P & L).
      simpl in *. rewrite R, F, P, L.
      rewrite probed_app. simpl. rewrite <- app_assoc.
      rewrite logged_app. simpl. rewrite app_nil_r. auto.
    + rewrite !probed_app, !logged_app. simpl. rewrite !app_nil_r. auto.
Qed.

(** *** [main]: the order of the checks *)

Lemma validate_target_eq t w :
  validate_target t w =
  (Ok (path_exists (fs w) t),
   mkWorld (fs w)
     (trace w ++
      EvExists t ::
      (if path_exists (fs w) t then [] else [missing_target_log t]))).
Proof.
  unfold validate_target, os_path_exists, bind, path_exists. simpl.
  destruct (bool_decide _); simpl; [reflexivity|].
  rewrite <- app_assoc. reflexivity.
Qed.

(** X6: when the target does not exist, [main] does one existence test,
    logs that the target does not exist and exits with status 1: the tool
    names and the ignore paths are not looked at, nothing else is logged. *)
Theorem missing_target_stops_everything args w :
  path_exists (fs w) (target args) = false ->
  main args w =
  (Raised (SystemExit 1),
   mkWorld (fs w)
     (trace w ++
      [EvExists (target args);
       EvLog ERROR
         ("Error: Target '" +:+ target args +:+ "' does not exist.")])).
Proof.
  intros H. unfold main, bind. rewrite validate_target_eq, H. reflexivity.
Qed.

(** X7: when the target exists and a requested tool is not supported,
    [main] logs the first such tool and exits with status 1 right after the
    test of the target: the ignore paths are never tested, even if some of
    them are missing. *)
Theorem invalid_tool_skips_ignore_check args tool w :
  path_exists (fs w) (target args) = true ->
  first_invalid (tools args) = Some tool ->
  main args w =
  (Raised (SystemExit 1),
   mkWorld (fs w)
     (trace w ++
      [EvExists (target args);
       EvLog ERROR
         ("Error: Invalid tool '" +:+ tool +:+
          "'. Valid tools are: ['bandit', 'flake8', 'pylint']")])).
Proof.
  intros H T. unfold main, bind.
  rewrite validate_target_eq, H. simpl.
  rewrite validate_tools_eq, T. simpl. rewrite <- app_assoc. reflexivity.
Qed.

(** *** [main]: empty arguments *)

Lemma build_command_empty_output tool target ignore offensive :
  build_command tool target ignore (Some EmptyString) offensive =
  build_command tool target ignore None offensive.
Proof. unfold build_command. repeat case_decide; reflexivity. Qed.

Lemma build_command_empty_ignore tool target output offensive :
  build_command tool target (Some []) output offensive =
  build_command tool target None output offensive.
Proof. unfold build_command. repeat case_decide; reflexivity. Qed.

Lemma run_tools_ext args1 args2 :
  target args1 = target args2 ->
  (forall tool w,
     run_tool tool (target args1) (ignore args1) (output args1)
              (offensive args1) w =
     run_tool tool (target args2) (ignore args2) (output args2)
              (offensive args2) w) ->
  forall todo results w,
    run_tools args1 todo results w = run_tools args2 todo results w.
Proof.
  intros Ht Hr todo. induction todo as [|tool rest IH]; intros results w.
  - reflexivity.
  - rewrite !run_tools_cons.
    assert (E : iteration args1 tool w = iteration args2 tool w).
    { unfold iteration, bind. simpl. rewrite Hr, Ht. reflexivity. }
    rewrite E. destruct (iteration args2 tool w) as [[r|e] w']; [|reflexivity].
    apply IH.
Qed.

(** X8: an empty output path ([--output ""]) and an empty ignore list are
    treated as if the option had not been given at all: the whole run is
    the same as with [None], so with an empty output path the report is
    printed and no file is opened. *)
Theorem empty_arguments_count_as_absent t ts o ig off w :
  main (mkArgs t ts (Some EmptyString) ig off) w =
    main (mkArgs t ts None ig off) w /\
  main (mkArgs t ts o (Some []) off) w = main (mkArgs t ts o None off) w.
Proof.
  split.
  - rewrite !main_split.
    change (validation (mkArgs t ts (Some EmptyString) ig off) w)
      with (validation (mkArgs t ts None ig off) w).
    destruct (validation (mkArgs t ts None ig off) w) as [[[]|e] w1];
      [|reflexivity].
    unfold execution, bind.
    rewrite (run_tools_ext (mkArgs t ts (Some EmptyString) ig off)
               (mkArgs t ts None ig off)); [reflexivity|reflexivity|].
    intros tool w0. simpl. unfold run_tool, run_tool_body.
    by rewrite build_command_empty_output.
  - rewrite !main_split.
    change (validation (mkArgs t ts o (Some []) off) w)
      with (validation (mkArgs t ts o None off) w).
    destruct (validation (mkArgs t ts o None off) w) as [[[]|e] w1];
      [|reflexivity].
    unfold execution, bind.
    rewrite (run_tools_ext (mkArgs t ts o (Some []) off)
               (mkArgs t ts o None off)); [reflexivity|reflexivity|].
    intros tool w0. simpl. unfold run_tool, run_tool_body.
    by rewrite build_command_empty_ignore.
Qed.

(** *** The loop: what is logged about a result *)

(** X9: after a tool has run the loop stores its result under the tool
    name and logs a WARNING with the exit code exactly when that code is
    not 0, followed by an ERROR with the tool's stderr exactly when that
    is not empty; for exit code 0 nothing is logged, stderr or not. *)
Theorem nonzero_exit_is_logged args tool results rc out err w1 w :
  run_tool tool (target args) (ignore args) (output args) (offensive args)
    (mkWorld (fs w)
       (trace w ++
        [EvLog INFO
           ("Running " +:+ tool +:+ " on " +:+ target args +:+ "...")])) =
    (Ok (rc, out, err), w1) ->
  run_tools args [tool] results w =
  (Ok (dict_set tool (mkResult rc out err) results),
   mkWorld (fs w1)
     (trace w1 ++
      (if (rc =? 0)%Z then []
       else EvLog WARNING
              (tool +:+ " returned a non-zero exit code: " +:+ str_int rc) ::
            (if nonempty_str err
             then [EvLog ERROR (tool +:+ " stderr: " +:+ err)] else [])))).
Proof.
  intros H. simpl. unfold bind. simpl. rewrite H.
  destruct (rc =? 0)%Z; simpl.
  - by rewrite world_eta.
  - destruct (nonempty_str err); simpl; rewrite <- ?app_assoc; reflexivity.
Qed.

(** *** [main]: a report that cannot be written *)

Lemma report_unwritable_log args results w :
  truthy_str (output args) = true ->
  can_open_w (fs w) (the_str (output args)) = false ->
  exists msg,
    report args results w =
    (Raised (SystemExit 1),
     mkWorld (fs w)
       (trace w ++
        [EvOpen (the_str (output args));
         EvLog ERROR ("Error writing to output file: " +:+ msg)])).
Proof.
  intros T C. unfold report. rewrite T.
  unfold try_except, bind, with_open_w, open_w, bind. simpl. rewrite C.
  simpl. eexists. rewrite <- app_assoc. reflexivity.
Qed.

Lemma main_unwritable_log args w :
  validation_fails args (fs w) = false ->
  truthy_str (output args) = true ->
  can_open_w (fs (after_tools args w)) (the_str (output args)) = false ->
  exists msg,
    main args w =
    (Raised (SystemExit 1),
     mkWorld (fs (after_tools args w))
       (trace (after_tools args w) ++
        [EvOpen (the_str (output args));
         EvLog ERROR ("Error writing to output file: " +:+ msg)])).
Proof.
  intros V T C. rewrite (main_valid _ _ V). unfold execution, bind.
  rewrite loop_spec.
  destruct (report_unwritable_log args (result_set args w) _ T C) as (msg & E).
  rewrite E. eauto.
Qed.

(** X10: when the output file cannot be opened, every requested tool has
    nevertheless been run; the results are then lost: nothing is printed,
    the program writes nothing (the file system is as the tools left it),
    the last thing it does is log "Error writing to output file: ..." and
    it exits with status 1. *)
Theorem unwritable_output_loses_report args w :
  validation_fails args (fs w) = false ->
  truthy_str (output args) = true ->
  can_open_w (fs (after_tools args w)) (the_str (output args)) = false ->
  (run_program args w).1 = 1%Z /\
  spawned (trace (main args w).2) = spawned (trace w) ++ commands_for args /\
  printed (trace (main args w).2) = printed (trace w) /\
  fs (main args w).2 = fs (after_tools args w) /\
  exists msg,
    last (trace (main args w).2) =
    Some (EvLog ERROR ("Error writing to output file: " +:+ msg)).
Proof.
  intros V T C.
  destruct (main_unwritable_log args w V T C) as (msg & E).
  destruct (after_tools_quiet args w) as (_ & Pr & _).
  rewrite run_program_fst, E. simpl.
  rewrite spawned_app, printed_app, after_tools_spawned, Pr. simpl.
  rewrite app_nil_r, string_app_nil_r.
  repeat split. exists msg.
  change [EvOpen (the_str (output args));
          EvLog ERROR ("Error writing to output file: " +:+ msg)]
    with ([EvOpen (the_str (output args))] ++
          [EvLog ERROR ("Error writing to output file: " +:+ msg)]).
  rewrite app_assoc. apply last_snoc.
Qed.

(** *** A single tool, end to end *)

Lemma iteration_completed args tool command rc out err f' w :
  build_command tool (target args) (ignore args) (output args)
                (offensive args) = Some command ->
  popen_oracle command (fs w) = (Completed rc out err, f') ->
  exists w',
    iteration args tool w =
    (Ok (mkResult rc (decode_utf8_ignore out) (decode_utf8_ignore err)), w') /\
    fs w' = f'.
Proof.
  intros B L. unfold iteration, bind. simpl.
  rewrite (run_tool_supported _ _ _ _ _ _ _ B). simpl. rewrite L.
  destruct (rc =? 0)%Z; simpl; [eauto|].
  destruct (nonempty_str (decode_utf8_ignore err)); simpl; eauto.
Qed.

(** X11: for a request of one supported tool without output path, whose
    process completes, the result set holds exactly one entry, made of the
    exit code and the decoded streams of that process; the run prints the
    block of that entry and nothing else, leaves the file system as the
    process left it and exits with status 0, whatever the exit code of the
    tool. *)
Theorem single_tool_end_to_end args tool command rc out err f' w :
  tools args = [tool] ->
  validation_fails args (fs w) = false ->
  truthy_str (output args) = false ->
  build_command tool (target args) (ignore args) (output args)
                (offensive args) = Some command ->
  popen_oracle command (fs w) = (Completed rc out err, f') ->
  result_set args w =
    [(tool, mkResult rc (decode_utf8_ignore out) (decode_utf8_ignore err))] /\
  printed (trace (main args w).2) =
    printed (trace w) +:+
    report_block tool
      (mkResult rc (decode_utf8_ignore out) (decode_utf8_ignore err)) /\
  fs (main args w).2 = f' /\
  (run_program args w).1 = 0%Z.
Proof.
  intros Ht V T B L.
  destruct (after_validation_spec args w) as (pre & Ev & _).
  assert (L' : popen_oracle command (fs (after_validation args w)) =
               (Completed rc out err, f')) by (by rewrite Ev).
  destruct (iteration_completed args tool command rc out err f'
              (after_validation args w) B L') as (w' & Ei & Ef).
  assert (Ex : run_executions args w =
               ([(tool, mkResult rc (decode_utf8_ignore out)
                           (decode_utf8_ignore err))], w')).
  { unfold run_executions. rewrite Ht. simpl. rewrite Ei. reflexivity. }
  assert (Er : result_set args w =
               [(tool, mkResult rc (decode_utf8_ignore out)
                          (decode_utf8_ignore err))]).
  { unfold result_set. rewrite Ex. reflexivity. }
  destruct (main_stdout args w V T) as (evs & E & Pe & _).
  destruct (after_tools_quiet args w) as (_ & Pr & _).
  split; [exact Er|]. split; [|split].
  - rewrite E. simpl. rewrite printed_app, Pr, Pe, Er. simpl.
    by rewrite string_app_nil_r.
  - rewrite E. simpl. unfold after_tools. rewrite Ex. exact Ef.
  - rewrite run_program_fst, main_outcome, V. unfold output_unwritable.
    rewrite T. reflexivity.
Qed.

(** *** What the program itself opens and writes *)

Lemma written_app t1 t2 : written (t1 ++ t2) = written t1 ++ written t2.
Proof.
  induction t1 as [|e t1 IH]; [reflexivity|].
  destruct e; simpl; rewrite ?IH; reflexivity.
Qed.

Lemma written_allowed path allowed evs :
  forallb (writes_to path allowed) evs = true ->
  forall p, p ∈ written evs -> allowed = true /\ p = path.
Proof.
  induction evs as [|e evs IH]; intros H p Hp.
  - by apply elem_of_nil in Hp.
  - simpl in H. apply andb_true_iff in H as [He H].
    destruct e; simpl in *; try (by apply IH).
    apply elem_of_cons in Hp as [->|Hp]; [|by apply IH].
    apply andb_true_iff in He as [Ha Hq].
    split; [exact Ha|]. by apply bool_decide_eq_true in Hq.
Qed.

Lemma written_none evs :
  forallb (fun e => match e with EvWrite _ _ => false | _ => true end) evs
    = true ->
  written evs = [].
Proof.
  induction evs as [|e evs IH]; [reflexivity|].
  destruct e; simpl; try discriminate; exact IH.
Qed.

Lemma emits_file_write p f data :
  p (EvWrite f data) = true -> emits p (file_write f data).
Proof.
  intros H w. unfold file_write, bind, emit. simpl.
  exists [EvWrite f data].
  destruct (nodes (fs w) !! f) as [[s|]|]; simpl; by rewrite H.
Qed.

Lemma emits_with_open_w {A} p path (body : string -> M A) :
  p (EvOpen path) = true ->
  emits p (body path) -> emits p (with_open_w path body).
Proof.
  intros H Hb w. unfold with_open_w, bind, open_w, bind, emit. simpl.
  destruct (can_open_w (fs w) path).
  - match goal with
    | |- context [body path ?w1] => destruct (Hb w1) as (evs & E & P)
    end.
    exists (EvOpen path :: evs). simpl in *. rewrite E, H, P, <- app_assoc.
    split; reflexivity.
  - exists [EvOpen path]. simpl. by rewrite H.
Qed.

Lemma emits_report args results :
  emits (writes_to (the_str (output args)) (truthy_str (output args)))
        (report args results).
Proof.
  unfold report. destruct (truthy_str (output args)) eqn:T.
  - apply emits_try_except.
    + apply emits_bind; [|intros _; by apply emits_log].
      apply emits_with_open_w; [reflexivity|].
      apply emits_for_each. intros [tool r]. unfold write_block.
      assert (Hw : forall data,
                emits (writes_to (the_str (output args)) true)
                      (file_write (the_str (output args)) data)).
      { intros data. apply emits_file_write. simpl.
        by rewrite bool_decide_eq_true_2. }
      do 4 (apply emits_bind; [apply Hw|intros _]). apply Hw.
    + intros e k. destruct (is_IOError e); [|discriminate].
      intros [= <-]. apply emits_bind; [by apply emits_log|intros _].
      apply emits_raise.
  - apply emits_for_each. intros [tool r]. unfold print_block.
    do 4 (apply emits_bind; [by apply emits_emit|intros _]).
    by apply emits_emit.
Qed.

Lemma emits_execution args :
  emits (writes_to (the_str (output args)) (truthy_str (output args)))
        (execution args).
Proof.
  unfold execution. apply emits_bind.
  - apply (emits_weaken (fun e => is_log e || is_spawn e));
      [|apply emits_run_tools].
    intros e. destruct e; simpl; congruence.
  - intros results. apply emits_bind; [apply emits_report|intros _].
    by apply emits_log.
Qed.

(** X12: the only path the program itself ever opens is the configured
    output path: a run attempts exactly one [open], of that path and for
    writing, when validation passes and an output path is set, and none
    otherwise; and every [write] of the program goes to that very file,
    none happening when validation fails or no output path is set. *)
Theorem only_output_path_is_opened args w :
  opened (trace (main args w).2) =
    opened (trace w) ++
    (if negb (validation_fails args (fs w)) && truthy_str (output args)
     then [the_str (output args)] else []) /\
  exists ws,
    written (trace (main args w).2) = written (trace w) ++ ws /\
    forall p, p ∈ ws ->
      validation_fails args (fs w) = false /\
      truthy_str (output args) = true /\
      p = the_str (output args).
Proof.
  destruct (after_validation_spec args w) as (pre & Ev & Pv).
  assert (Wp : written pre = []).
  { apply written_none. revert Pv. apply forallb_impl. by_event_cases. }
  destruct (after_validation_quiet args w) as (_ & Ov & _).
  destruct (after_tools_quiet args w) as (Ot & _).
  destruct (validation_fails args (fs w)) eqn:V.
  { rewrite (main_invalid _ _ V). simpl. split.
    - by rewrite Ov, app_nil_r.
    - exists []. rewrite Ev. simpl. rewrite written_app, Wp. split; [done|].
      intros p Hp. by apply elem_of_nil in Hp. }
  simpl. split.
  - destruct (truthy_str (output args)) eqn:T.
    + destruct (can_open_w (fs (after_tools args w)) (the_str (output args)))
        eqn:C.
      * destruct (main_file_ok args w V T C) as (evs & E & P).
        rewrite E. simpl. rewrite opened_app, Ot. simpl.
        rewrite (opened_none evs); [reflexivity|].
        revert P. apply forallb_impl. by_event_cases.
      * destruct (main_file_unwritable args w V T C) as (msg & E).
        rewrite E. simpl. rewrite opened_app, Ot. reflexivity.
    + destruct (main_stdout args w V T) as (evs & E & _ & P).
      rewrite E. simpl. rewrite opened_app, Ot, (opened_none evs); [done|].
      revert P. apply forallb_impl. by_event_cases.
  - rewrite (main_valid _ _ V).
    destruct (emits_execution args (after_validation args w)) as (evs & E & P).
    exists (written evs). rewrite E, Ev. simpl.
    rewrite !written_app, Wp, app_nil_r. split; [reflexivity|].
    intros p Hp. split; [reflexivity|].
    by apply (written_allowed _ _ evs P).
Qed.

(** *** The default request *)

(** X13: called with a target only, the program runs the three tools in
    the order bandit, flake8, pylint, each with its base command line on
    that target (no rule set, no exclusion, no report file), opens no file
    and, as soon as the target exists, exits with status 0. *)
Theorem default_run target w :
  path_exists (fs w) target = true ->
  spawned (trace (main (default_namespace target) w).2) =
    spawned (trace w) ++
    [["bandit"; "-r"; target; "-q"];
     ["flake8"; target];
     ["pylint"; target; "--disable=all"; "--enable=security"; "--reports=n"]] /\
  opened (trace (main (default_namespace target) w).2) = opened (trace w) /\
  (run_program (default_namespace target) w).1 = 0%Z.
Proof.
  intros H.
  assert (V : validation_fails (default_namespace target) (fs w) = false).
  { unfold validation_fails, target_missing. simpl. rewrite H. reflexivity. }
  assert (T : truthy_str (output (default_namespace target)) = false)
    by reflexivity.
  split; [|split].
  - rewrite (main_spawned _ _ V). reflexivity.
  - destruct (main_stdout _ w V T) as (evs & E & _ & P).
    destruct (after_tools_quiet (default_namespace target) w) as (O & _).
    rewrite E. simpl. rewrite opened_app, O, (opened_none evs).
    + by rewrite app_nil_r.
    + revert P. apply forallb_impl. by_event_cases.
  - rewrite run_program_fst, main_outcome, V. reflexivity.
Qed.

(** *** Commas in ignore paths *)

Lemma join_comma_split before (a b : string) after :
  join "," (before ++ (a +:+ "," +:+ b) :: after) =
  join "," (before ++ a :: b :: after).
Proof.
  unfold join. induction before as [|x before IH].
  - destruct after as [|c after]; simpl.
    + reflexivity.
    + rewrite !string_app_assoc. reflexivity.
  - destruct before as [|y before]; simpl in *; by rewrite IH.
Qed.

Lemma truthy_list_middle (before : list string) x after :
  truthy_list (Some (before ++ x :: after)) = true.
Proof. destruct before; reflexivity. Qed.

(** X14: flake8 and pylint receive the ignore paths joined by commas in one
    token, so an ignore path that contains a comma, wherever it stands in
    the list, gives the same command line as the two paths on either side
    of the comma given separately in its place; bandit, which gets one
    ["-x"] per path, tells the two lists apart. *)
Theorem comma_in_ignore_path_is_split
    before a b after target output offensive :
  build_command "flake8" target
                (Some (before ++ (a +:+ "," +:+ b) :: after)) output
                offensive =
    build_command "flake8" target (Some (before ++ a :: b :: after)) output
                  offensive /\
  build_command "pylint" target
                (Some (before ++ (a +:+ "," +:+ b) :: after)) output
                offensive =
    build_command "pylint" target (Some (before ++ a :: b :: after)) output
                  offensive /\
  build_command "bandit" target
                (Some (before ++ (a +:+ "," +:+ b) :: after)) output
                offensive <>
    build_command "bandit" target (Some (before ++ a :: b :: after)) output
                  offensive.
Proof.
  split; [|split].
  - change (Some (flake8_command target
                    (Some (before ++ (a +:+ "," +:+ b) :: after)) output) =
            Some (flake8_command target (Some (before ++ a :: b :: after))
                    output)).
    rewrite !flake8_command_shape, !truthy_list_middle.
    cbn [the_list default id]. by rewrite join_comma_split.
  - change (Some (pylint_command target
                    (Some (before ++ (a +:+ "," +:+ b) :: after)) output) =
            Some (pylint_command target (Some (before ++ a :: b :: after))
                    output)).
    rewrite !pylint_command_shape, !truthy_list_middle.
    cbn [the_list default id]. by rewrite join_comma_split.
  - change (Some (bandit_command target
                    (Some (before ++ (a +:+ "," +:+ b) :: after)) output
                    offensive) <>
            Some (bandit_command target (Some (before ++ a :: b :: after))
                    output offensive)).
    rewrite !bandit_command_shape. cbn [the_list default id].
    intros [= E]. apply (f_equal length) in E. revert E.
    assert (Len : forall l : list string,
              length (concat (map (fun i => ["-x"; i]) l)) = 2 * length l).
    { intros l. induction l as [|i l IH]; simpl in *; lia. }
    rewrite !length_app, !Len, !length_app. simpl. lia.
Qed.

(** *** The last record of a run *)

Lemma validate_paths_last l w :
  forallb (path_exists (fs w)) l = false ->
  exists msg, last (trace (validate_paths l w).2) = Some (EvLog ERROR msg).
Proof.
  revert w. induction l as [|path rest IH]; intros w H; [discriminate|].
  simpl in *. unfold os_path_exists, bind. simpl.
  fold (path_exists (fs w) path).
  destruct (path_exists (fs w) path) eqn:E; simpl in *.
  - apply (IH (mkWorld (fs w) (trace w ++ [EvExists path])) H).
  - eexists. apply last_snoc.
Qed.

Lemma validation_last args w :
  validation_fails args (fs w) = true ->
  exists msg, last (trace (after_validation args w)) = Some (EvLog ERROR msg).
Proof.
  unfold after_validation, validation, validation_fails, target_missing,
    invalid_tool_given, ignore_path_missing, bind.
  rewrite validate_target_eq.
  destruct (path_exists (fs w) (target args)) eqn:Ht; simpl.
  2: { intros _. eexists.
       change [EvExists (target args); missing_target_log (target args)]
         with ([EvExists (target args)] ++
               [missing_target_log (target args)]).
       rewrite app_assoc. apply last_snoc. }
  rewrite validate_tools_eq.
  destruct (validate_tools_spec (tools args)
              (mkWorld (fs w) (trace w ++ [EvExists (target args)])))
    as (e2 & E2 & _).
  rewrite validate_tools_eq in E2.
  destruct (first_invalid (tools args)) as [tool|] eqn:Fi.
  { intros _. simpl. eexists. apply last_snoc. }
  injection E2 as E2 _. rewrite <- E2. simpl.
  destruct (ignore args) as [[|p l]|]; [simpl; discriminate| |simpl; discriminate].
  cbn [truthy_list validate_ignore_paths the_list default id].
  intros H.
  match goal with
  | |- context [validate_paths (p :: l) ?w0] =>
      destruct (validate_paths_spec (p :: l) w0) as (e3 & E3 & _);
      destruct (validate_paths_last (p :: l) w0) as (msg & Hl)
  end.
  - by apply negb_true_iff in H.
  - exists msg. rewrite E3 in *. cbn [fst snd fs trace] in *.
    apply negb_true_iff in H. rewrite H. simpl. exact Hl.
Qed.

Lemma main_ok_last args w :
  (main args w).1 = Ok tt -> last (trace (main args w).2) = Some final_log.
Proof.
  rewrite main_split.
  destruct (validation args w) as [[[]|e] w1]; [|discriminate].
  unfold execution, bind.
  destruct (run_tools args (tools args) [] w1) as [[d|e] w2]; [|discriminate].
  destruct (report args d w2) as [[[]|e] w3]; [|discriminate].
  intros _. rewrite logging_info_eq. simpl. apply last_snoc.
Qed.

(** X15: the INFO record "Analysis complete." is the last event of a run
    exactly when the run exits with status 0; every run that exits with
    status 1 ends on an ERROR record instead. *)
Theorem analysis_complete_iff_success args w :
  ((run_program args w).1 = 0%Z <->
   last (trace (main args w).2) = Some (EvLog INFO "Analysis complete.")) /\
  ((run_program args w).1 = 1%Z <->
   exists msg, last (trace (main args w).2) = Some (EvLog ERROR msg)).
Proof.
  assert (Ok0 : (main args w).1 = Ok tt ->
                last (trace (main args w).2) = Some final_log)
    by apply main_ok_last.
  assert (Bad : (main args w).1 = Raised (SystemExit 1) ->
                exists msg,
                  last (trace (main args w).2) = Some (EvLog ERROR msg)).
  { intros Hm. destruct (validation_fails args (fs w)) eqn:V.
    - rewrite (main_invalid _ _ V). simpl. by apply validation_last.
    - rewrite main_outcome, V in Hm. simpl in Hm.
      destruct (output_unwritable args (fs (after_tools args w))) eqn:U;
        [|discriminate].
      unfold output_unwritable in U. apply andb_true_iff in U as [T C].
      apply negb_true_iff in C.
      destruct (main_unwritable_log args w V T C) as (msg & E).
      rewrite E. simpl. eexists.
      match goal with
      | |- last (?t ++ [?a; ?b]) = _ =>
          change (t ++ [a; b]) with (t ++ [a] ++ [b])
      end.
      rewrite app_assoc. apply last_snoc. }
  rewrite run_program_fst. rewrite main_outcome in *.
  destruct (validation_fails args (fs w) ||
            output_unwritable args (fs (after_tools args w))); simpl.
  - destruct (Bad eq_refl) as (msg & Hl). rewrite Hl. split.
    + split; [discriminate|]. intros [=].
    + split; [eauto|reflexivity].
  - rewrite (Ok0 eq_refl). split.
    + split; reflexivity.
    + split; [discriminate|]. intros (msg & [=]).
Qed.

(** *** The loop runs the tools in sequence *)

Lemma iteration_outcome args tool w :
  exists w',
    iteration args tool w = (Ok (tool_outcome args tool (fs w)).1, w') /\
    fs w' = (tool_outcome args tool (fs w)).2.
Proof.
  unfold iteration, tool_outcome, bind. simpl.
  destruct (build_command tool (target args) (ignore args) (output args)
              (offensive args)) as [command|] eqn:B.
  - rewrite (run_tool_supported _ _ _ _ _ _ _ B). simpl.
    destruct (popen_oracle command (fs w)) as [[rc out err|c msg] f']; simpl.
    + destruct (rc =? 0)%Z; simpl; [eauto|].
      destruct (nonempty_str (decode_utf8_ignore err)); simpl; eauto.
    + destruct (nonempty_str msg); simpl; eauto.
  - rewrite (run_tool_unsupported _ _ _ _ _ _ B). simpl.
    destruct (nonempty_str ("Unsupported tool: " +:+ tool)); simpl; eauto.
Qed.

Lemma executions_outcomes args todo w :
  (executions args todo w).1 = (outcomes args todo (fs w)).1 /\
  fs (executions args todo w).2 = (outcomes args todo (fs w)).2.
Proof.
  revert w. induction todo as [|tool rest IH]; intros w; [by split|].
  cbn [executions outcomes].
  destruct (iteration_outcome args tool w) as (w' & E & F).
  rewrite E. destruct (tool_outcome args tool (fs w)) as [r f1].
  simpl in F. subst f1. destruct (IH w') as (IH1 & IH2).
  destruct (executions args rest w') as [l w''].
  destruct (outcomes args rest (fs w')) as [l' f2].
  simpl in *. subst. by split.
Qed.

(** X16: the results the loop stores and the file system it leaves are
    those of running the command line of each requested tool in the order
    of the request, each on the file system the one before left: a tool
    whose launch raises gives [(1, "", description)], an unsupported one
    [(1, "", "Unsupported tool: ...")], any other its exit code and decoded
    streams.  What has been logged or done before has no influence. *)
Theorem tools_run_in_sequence args todo results w :
  (run_tools args todo results w).1 =
    Ok (assign_all (outcomes args todo (fs w)).1 results) /\
  fs (run_tools args todo results w).2 = (outcomes args todo (fs w)).2.
Proof.
  rewrite run_tools_spec. simpl.
  destruct (executions_outcomes args todo w) as (E1 & E2).
  by rewrite E1, E2.
Qed.

(** *** The paths a run tests *)

Lemma validate_paths_probed l w :
  probed (trace (validate_paths l w).2) =
  probed (trace w) ++ probes_until_missing (fs w) l.
Proof.
  revert w. induction l as [|path rest IH]; intros w.
  - simpl. by rewrite app_nil_r.
  - simpl. unfold os_path_exists, bind. simpl.
    fold (path_exists (fs w) path).
    destruct (path_exists (fs w) path); simpl.
    + rewrite IH. simpl. rewrite probed_app, <- app_assoc. reflexivity.
    + rewrite !probed_app, <- app_assoc. reflexivity.
Qed.

Lemma first_invalid_forallb requested :
  forallb (fun t => contains t supported_tools) requested =
  match first_invalid requested with None => true | Some _ => false end.
Proof.
  unfold first_invalid. induction requested as [|tool rest IH]; [reflexivity|].
  simpl. change valid_tools with supported_tools.
  destruct (contains tool supported_tools); simpl; [exact IH|reflexivity].
Qed.

Lemma validation_probed args w :
  probed (trace (after_validation args w)) =
  probed (trace w) ++
  target args ::
  (if path_exists (fs w) (target args) &&
      forallb (fun t => contains t supported_tools) (tools args)
   then probes_until_missing (fs w) (the_list (ignore args)) else []).
Proof.
  unfold after_validation, validation, bind.
  rewrite validate_target_eq, first_invalid_forallb.
  destruct (path_exists (fs w) (target args)); simpl.
  2: { rewrite probed_app. reflexivity. }
  rewrite validate_tools_eq.
  destruct (first_invalid (tools args)) as [tool|]; simpl.
  { rewrite !probed_app. simpl. rewrite app_nil_r. reflexivity. }
  destruct (ignore args) as [[|p l]|].
  - simpl. rewrite probed_app. reflexivity.
  - cbn [truthy_list validate_ignore_paths the_list default id].
    match goal with
    | |- context [validate_paths (p :: l) ?w0] =>
        pose proof (validate_paths_probed (p :: l) w0) as Hp;
        destruct (validate_paths (p :: l) w0) as [[ok|e] w1]
    end.
    + cbn [fst snd fs trace] in *.
      assert (Hw : probed (trace (when (negb ok) (sys_exit 1) w1).2) =
                   probed (trace w1)) by (destruct ok; reflexivity).
      rewrite Hw, Hp, probed_app, <- app_assoc. reflexivity.
    + cbn [fst snd fs trace] in *.
      rewrite Hp, probed_app, <- app_assoc. reflexivity.
  - simpl. rewrite probed_app. reflexivity.
Qed.

(** X17: the paths a run tests for existence are the target, always and
    first; then, only if the target exists and every requested tool is
    supported, the ignore paths in order up to the first missing one.
    Nothing is tested once the tools start, so the ignore paths are not
    checked again and the output path is never tested. *)
Theorem paths_tested_by_a_run args w :
  probed (trace (main args w).2) =
  probed (trace w) ++
  target args ::
  (if path_exists (fs w) (target args) &&
      forallb (fun t => contains t supported_tools) (tools args)
   then probes_until_missing (fs w) (the_list (ignore args)) else []).
Proof.
  rewrite <- validation_probed.
  destruct (validation_fails args (fs w)) eqn:V.
  - by rewrite (main_invalid _ _ V).
  - destruct (main_tail args w V) as (tail & E & P & _).
    destruct (after_tools_quiet args w) as (_ & _ & Pb).
    rewrite E, probed_app, Pb, (probed_none tail); [by rewrite app_nil_r|].
    exact P.
Qed.

End Program.

(** ** The embedding at work *)

Ltac by_computation := apply (bool_decide_unpack _); vm_compute; exact I.

(** The end-to-end example of the specification: one tool, no ignore list,
    no output path. *)
Example single_tool_run :
  let args := mkArgs "proj" ["flake8"] None None false in
  let w := initial sample_fs in
  result_set sample_oracle sample_decode args w =
    [("flake8", mkResult 1 "app.py:1:80: E501 line too long" EmptyString)] /\
  spawned (trace (main sample_oracle sample_decode args w).2) =
    [["flake8"; "proj"]] /\
  (run_program sample_oracle sample_decode args w).1 = 0%Z.
Proof. vm_compute. repeat split. Qed.

(** A read-only report file ends the run with status 1, after the tool has
    run. *)
Example locked_report_run :
  (run_program sample_oracle sample_decode locked_args (initial sample_fs)).1
    = 1%Z /\
  length (spawned (trace (run_program sample_oracle sample_decode locked_args
                            (initial sample_fs)).2)) = 1.
Proof. vm_compute. split; reflexivity. Qed.

(** C1, as stated, fails: for the unsupported identifier ["mypy"]
    [run_tool] raises nothing, it returns a result. *)
Lemma unsupported_tool_does_not_raise :
  ("mypy" ∉ supported_tools) /\
  (run_tool sample_oracle sample_decode "mypy" "proj" None None false
            (initial sample_fs)).1 =
    Ok (1%Z, EmptyString, "Unsupported tool: mypy") /\
  ~ (exists e,
       (run_tool sample_oracle sample_decode "mypy" "proj" None None false
                 (initial sample_fs)).1 = Raised e).
Proof.
  split; [by_computation|]. split; [reflexivity|].
  intros [e H]. vm_compute in H. discriminate H.
Qed.

Lemma unsupported_tool_is_reported_witness :
  ("mypy" ∉ supported_tools) /\
  (run_tool sample_oracle sample_decode "mypy" "proj" None None false
            (initial sample_fs)).1 =
    Ok (1%Z, EmptyString, "Unsupported tool: " +:+ "mypy") /\
  spawned (trace (run_tool sample_oracle sample_decode "mypy" "proj" None None
                           false (initial sample_fs)).2) =
    spawned (trace (initial sample_fs)) /\
  fs (run_tool sample_oracle sample_decode "mypy" "proj" None None false
               (initial sample_fs)).2 = fs (initial sample_fs).
Proof.
  assert (H : "mypy" ∉ supported_tools) by by_computation.
  split; [exact H|].
  apply (unsupported_tool_is_reported sample_oracle sample_decode
           "mypy" "proj" None None false (initial sample_fs) H).
Defined.

Lemma validation_precedes_execution_witness :
  validation_fails missing_args (fs (initial sample_fs)) = true /\
  (run_program sample_oracle sample_decode missing_args
               (initial sample_fs)).1 = 1%Z /\
  spawned (trace (run_program sample_oracle sample_decode missing_args
                              (initial sample_fs)).2) =
    spawned (trace (initial sample_fs)) /\
  fs (run_program sample_oracle sample_decode missing_args
                  (initial sample_fs)).2 = fs (initial sample_fs).
Proof.
  assert (V : validation_fails missing_args (fs (initial sample_fs)) = true)
    by (vm_compute; reflexivity).
  split; [exact V|].
  apply (proj2 (validation_precedes_execution sample_oracle sample_decode
                  missing_args (initial sample_fs)) V).
Defined.

(** C3, as stated, fails: a launch that raises an exception with an empty
    description leaves stderr empty. *)
Lemma launch_failure_with_empty_description :
  build_command "flake8" "proj" None None false = Some ["flake8"; "proj"] /\
  exhausted_oracle ["flake8"; "proj"] (fs (initial sample_fs)) =
    (LaunchFailed OtherException EmptyString, sample_fs) /\
  (run_tool exhausted_oracle sample_decode "flake8" "proj" None None false
            (initial sample_fs)).1 = Ok (1%Z, EmptyString, EmptyString) /\
  ~ (exists rc out err,
       (run_tool exhausted_oracle sample_decode "flake8" "proj" None None
                 false (initial sample_fs)).1 = Ok (rc, out, err) /\
       err <> EmptyString).
Proof.
  split; [reflexivity|]. split; [reflexivity|]. split; [reflexivity|].
  intros (rc & out & err & H & Hne). vm_compute in H.
  injection H as _ _ H. apply Hne. symmetry. exact H.
Qed.

Lemma launch_failure_is_contained_witness :
  validation_fails sample_args (fs (initial sample_fs)) = false /\
  (run_tool sample_oracle sample_decode "bandit" (target sample_args)
            (ignore sample_args) (output sample_args) (offensive sample_args)
            (initial sample_fs)).1 =
    Ok (1%Z, EmptyString, "[Errno 2] No such file or directory: 'bandit'") /\
  length (spawned (trace (main sample_oracle sample_decode sample_args
                               (initial sample_fs)).2)) = 4.
Proof.
  assert (V : validation_fails sample_args (fs (initial sample_fs)) = false)
    by (vm_compute; reflexivity).
  split; [exact V|].
  destruct (launch_failure_is_contained sample_oracle sample_decode
              sample_args (initial sample_fs) "bandit"
              (bandit_command (target sample_args) (ignore sample_args)
                              (output sample_args) (offensive sample_args))
              FileNotFoundError
              "[Errno 2] No such file or directory: 'bandit'"
              sample_fs (initial sample_fs) V eq_refl eq_refl)
    as (R & S & L).
  split; [exact R|].
  rewrite S, length_app, L. reflexivity.
Defined.

Lemma command_has_target_and_base_flags_witness :
  ("pylint" ∈ supported_tools) /\
  exists command,
    build_command "pylint" "proj" None None false = Some command /\
    "proj" ∈ command /\
    (forall flag, flag ∈ base_flags "pylint" -> flag ∈ command).
Proof.
  assert (H : "pylint" ∈ supported_tools) by by_computation.
  split; [exact H|].
  destruct (command_has_target_and_base_flags sample_oracle sample_decode
              "pylint" "proj" None None false (initial sample_fs) H)
    as (command & B & _ & _ & T & F & _).
  exists command. auto.
Defined.

Lemma exclusion_tokens_witness :
  ["proj/app.py"; "docs"] <> [] /\
  build_command "bandit" "proj" (Some ["proj/app.py"; "docs"]) None false =
    Some ["bandit"; "-r"; "proj"; "-q"; "-x"; "proj/app.py"; "-x"; "docs"] /\
  build_command "flake8" "proj" (Some ["proj/app.py"; "docs"]) None false =
    Some ["flake8"; "proj"; "--exclude"; "proj/app.py,docs"].
Proof.
  assert (H : ["proj/app.py"; "docs"] <> @nil string) by discriminate.
  split; [exact H|].
  destruct (exclusion_tokens "proj" ["proj/app.py"; "docs"] None false H)
    as (B & _ & _ & F & _).
  split; [exact B|exact F].
Defined.

Lemma exit_code_spec_witness :
  (exists r,
     dict_get "flake8" (result_set sample_oracle sample_decode stdout_args
                                   (initial sample_fs)) = Some r /\
     return_code r = 1%Z) /\
  (run_program sample_oracle sample_decode stdout_args (initial sample_fs)).1
    = 0%Z.
Proof.
  split.
  - eexists. split; vm_compute; reflexivity.
  - apply (proj1 (proj2 (exit_code_spec sample_oracle sample_decode
                           stdout_args (initial sample_fs)))).
    vm_compute. repeat split.
Defined.

Lemma report_is_one_block_per_entry_witness :
  validation_fails stdout_args (fs (initial sample_fs)) = false /\
  output_unwritable stdout_args
    (fs (after_tools sample_oracle sample_decode stdout_args
                     (initial sample_fs))) = false /\
  dict_keys (result_set sample_oracle sample_decode stdout_args
                        (initial sample_fs)) = ["flake8"; "pylint"] /\
  printed (trace (main sample_oracle sample_decode stdout_args
                       (initial sample_fs)).2) =
    printed (trace (initial sample_fs)) +:+
    report_text (dict_items (result_set sample_oracle sample_decode
                                        stdout_args (initial sample_fs))).
Proof.
  assert (V : validation_fails stdout_args (fs (initial sample_fs)) = false)
    by (vm_compute; reflexivity).
  assert (U : output_unwritable stdout_args
                (fs (after_tools sample_oracle sample_decode stdout_args
                                 (initial sample_fs))) = false)
    by (vm_compute; reflexivity).
  split; [exact V|]. split; [exact U|].
  destruct (report_is_one_block_per_entry sample_oracle sample_decode
              stdout_args (initial sample_fs) V U)
    as (_ & _ & K & _ & _ & _ & _ & S).
  split; [rewrite K; reflexivity|].
  apply (S eq_refl).
Defined.

Lemma duplicates_collapse_witness :
  validation_fails sample_args (fs (initial sample_fs)) = false /\
  ~ NoDup (tools sample_args) /\
  length (result_set sample_oracle sample_decode sample_args
                     (initial sample_fs)) <
    length (tools sample_args).
Proof.
  assert (V : validation_fails sample_args (fs (initial sample_fs)) = false)
    by (vm_compute; reflexivity).
  assert (N : ~ NoDup (tools sample_args)) by by_computation.
  split; [exact V|]. split; [exact N|].
  destruct (duplicates_collapse sample_oracle sample_decode sample_args
              (initial sample_fs) V)
    as (_ & _ & _ & _ & _ & _ & _ & _ & H).
  exact (H N).
Defined.

Lemma report_replaces_native_output_witness :
  validation_fails sample_args (fs (initial sample_fs)) = false /\
  truthy_str (output sample_args) = true /\
  can_open_w (fs (after_tools sample_oracle sample_decode sample_args
                              (initial sample_fs)))
             (the_str (output sample_args)) = true /\
  read_file (fs (after_tools sample_oracle sample_decode sample_args
                             (initial sample_fs))) "report.txt" =
    Some "flake8 native report" /\
  read_file (fs (main sample_oracle sample_decode sample_args
                      (initial sample_fs)).2) (the_str (output sample_args)) =
    Some (report_text (dict_items (result_set sample_oracle sample_decode
                                              sample_args
                                              (initial sample_fs)))).
Proof.
  assert (V : validation_fails sample_args (fs (initial sample_fs)) = false)
    by (vm_compute; reflexivity).
  assert (C : can_open_w (fs (after_tools sample_oracle sample_decode
                                          sample_args (initial sample_fs)))
                         (the_str (output sample_args)) = true)
    by (vm_compute; reflexivity).
  split; [exact V|]. split; [reflexivity|]. split; [exact C|].
  split; [vm_compute; reflexivity|].
  apply (report_replaces_native_output sample_oracle sample_decode sample_args
           (initial sample_fs) V eq_refl C).
Defined.

(** *** The further properties at work *)

Lemma run_tool_passes_result_through_witness :
  run_tool sample_oracle sample_decode "flake8" "proj" None None false
           (initial sample_fs) =
  (Ok (1%Z, "app.py:1:80: E501 line too long", EmptyString),
   mkWorld sample_fs
     [EvLog INFO ("Running: " +:+ join " " ["flake8"; "proj"]);
      EvSpawn ["flake8"; "proj"]]).
Proof.
  apply (run_tool_passes_result_through sample_oracle sample_decode
           "flake8" "proj" None None false ["flake8"; "proj"] 1%Z
           (String.list_byte_of_string "app.py:1:80: E501 line too long")
           [] sample_fs (initial sample_fs) eq_refl eq_refl).
Defined.

Lemma launch_failure_is_logged_witness :
  trace (run_tool sample_oracle sample_decode "bandit" "proj" None None false
                  (initial sample_fs)).2 =
  [EvLog INFO ("Running: " +:+ join " " ["bandit"; "-r"; "proj"; "-q"]);
   EvSpawn ["bandit"; "-r"; "proj"; "-q"];
   EvLog ERROR
     ("Error: " +:+ "bandit" +:+
      " not found. Please ensure it is installed and in your PATH.")].
Proof.
  apply (launch_failure_is_logged sample_oracle sample_decode
           "bandit" "proj" None None false ["bandit"; "-r"; "proj"; "-q"]
           FileNotFoundError "[Errno 2] No such file or directory: 'bandit'"
           sample_fs (initial sample_fs) eq_refl eq_refl).
Defined.

Lemma missing_target_stops_everything_witness :
  path_exists (fs (initial sample_fs)) (target missing_args) = false /\
  main sample_oracle sample_decode missing_args (initial sample_fs) =
  (Raised (SystemExit 1),
   mkWorld sample_fs
     [EvExists "nowhere";
      EvLog ERROR ("Error: Target '" +:+ "nowhere" +:+ "' does not exist.")]).
Proof.
  assert (H : path_exists (fs (initial sample_fs)) (target missing_args)
              = false) by (vm_compute; reflexivity).
  split; [exact H|].
  apply (missing_target_stops_everything sample_oracle sample_decode
           missing_args (initial sample_fs) H).
Defined.

Lemma invalid_tool_skips_ignore_check_witness :
  path_exists (fs (initial sample_fs)) (target invalid_args) = true /\
  first_invalid (tools invalid_args) = Some "mypy" /\
  path_exists sample_fs "nowhere" = false /\
  probed (trace (main sample_oracle sample_decode invalid_args
                      (initial sample_fs)).2) = ["proj"].
Proof.
  assert (H : path_exists (fs (initial sample_fs)) (target invalid_args)
              = true) by (vm_compute; reflexivity).
  assert (T : first_invalid (tools invalid_args) = Some "mypy")
    by (vm_compute; reflexivity).
  split; [exact H|]. split; [exact T|]. split; [vm_compute; reflexivity|].
  rewrite (invalid_tool_skips_ignore_check sample_oracle sample_decode
             invalid_args "mypy" (initial sample_fs) H T).
  reflexivity.
Defined.

Lemma nonzero_exit_is_logged_witness :
  logged (trace (run_tools sample_oracle sample_decode single_args ["flake8"]
                           [] (initial sample_fs)).2) =
  [(INFO, "Running flake8 on proj...");
   (INFO, "Running: flake8 proj");
   (WARNING, "flake8 returned a non-zero exit code: 1")].
Proof.
  rewrite (nonzero_exit_is_logged sample_oracle sample_decode single_args
             "flake8" [] 1%Z "app.py:1:80: E501 line too long" EmptyString
             (mkWorld sample_fs
                [EvLog INFO "Running flake8 on proj...";
                 EvLog INFO "Running: flake8 proj";
                 EvSpawn ["flake8"; "proj"]])
             (initial sample_fs) eq_refl).
  reflexivity.
Defined.

Lemma unwritable_output_loses_report_witness :
  validation_fails locked_args (fs (initial sample_fs)) = false /\
  (run_program sample_oracle sample_decode locked_args
               (initial sample_fs)).1 = 1%Z /\
  printed (trace (main sample_oracle sample_decode locked_args
                       (initial sample_fs)).2) = EmptyString /\
  length (spawned (trace (main sample_oracle sample_decode locked_args
                               (initial sample_fs)).2)) = 1.
Proof.
  assert (V : validation_fails locked_args (fs (initial sample_fs)) = false)
    by (vm_compute; reflexivity).
  assert (C : can_open_w
                (fs (after_tools sample_oracle sample_decode locked_args
                                 (initial sample_fs)))
                (the_str (output locked_args)) = false)
    by (vm_compute; reflexivity).
  destruct (unwritable_output_loses_report sample_oracle sample_decode
              locked_args (initial sample_fs) V eq_refl C)
    as (E & S & P & _).
  split; [exact V|]. split; [exact E|]. split; [exact P|].
  rewrite S. reflexivity.
Defined.

Lemma single_tool_end_to_end_witness :
  validation_fails single_args (fs (initial sample_fs)) = false /\
  result_set sample_oracle sample_decode single_args (initial sample_fs) =
    [("flake8", mkResult 1 "app.py:1:80: E501 line too long" EmptyString)] /\
  (run_program sample_oracle sample_decode single_args
               (initial sample_fs)).1 = 0%Z.
Proof.
  assert (V : validation_fails single_args (fs (initial sample_fs)) = false)
    by (vm_compute; reflexivity).
  destruct (single_tool_end_to_end sample_oracle sample_decode single_args
              "flake8" ["flake8"; "proj"] 1%Z
              (String.list_byte_of_string "app.py:1:80: E501 line too long")
              [] sample_fs (initial sample_fs)
              eq_refl V eq_refl eq_refl eq_refl)
    as (R & _ & _ & E).
  split; [exact V|]. split; [exact R|exact E].
Defined.

Lemma default_run_witness :
  path_exists (fs (initial sample_fs)) "proj" = true /\
  spawned (trace (main sample_oracle sample_decode (default_namespace "proj")
                       (initial sample_fs)).2) =
    [["bandit"; "-r"; "proj"; "-q"];
     ["flake8"; "proj"];
     ["pylint"; "proj"; "--disable=all"; "--enable=security"; "--reports=n"]] /\
  (run_program sample_oracle sample_decode (default_namespace "proj")
               (initial sample_fs)).1 = 0%Z.
Proof.
  assert (H : path_exists (fs (initial sample_fs)) "proj" = true)
    by (vm_compute; reflexivity).
  destruct (default_run sample_oracle sample_decode "proj"
              (initial sample_fs) H) as (S & _ & E).
  split; [exact H|]. split; [exact S|exact E].
Defined.
